(** * Changelog-to-Discord notifier: entry diffing, summary formatting and
      chunked webhook delivery

    A shallow embedding of [Tools/actions_pr_changelog_to_discord.py] and the
    properties of its delta engine ([diff_entries]), its summary formatter
    ([count_change_types], [render_change_type_summary],
    [changelog_entries_to_message_lines]) and its delivery pipeline
    ([send_discord_webhook], [send_message_lines]).

    Conventions of the embedding.
    - A Python [str] is the list of its Unicode code points, so that [len],
      slicing and [strip] count what Python counts.
    - The values [yaml.safe_load] hands to the script are modelled by their
      JSON-like fragment: [None], booleans, integers, strings, lists and
      string-keyed dicts.  Floats (and with them NaN), dates and binary
      scalars are left out.
    - A dict is the association list of its items in insertion order; a
      Python dict never holds a key twice, which [wf_value] records.
    - Exceptions are explicit: a computation that can raise returns a
      [result].
    - The webhook is the list of the responses it will give; every POST is
      answered by the next one.  A POST that fails without a response
      (connection error, timeout) is not modelled. *)

From Stdlib Require Import ZArith List String Ascii DecimalString QArith Lia.

From stdpp Require Import base decidable option list countable gmap.

Set Warnings "-register-all,-clear-no-such-hyp".

Open Scope Z_scope.

Open Scope list_scope.

(** ** Python strings *)

Abbreviation char := N (only parsing).

Abbreviation pystr := (list N) (only parsing).

(** An ASCII literal of the source, as code points. *)
Definition lit (s : string) : pystr :=
  map N_of_ascii (list_ascii_of_string s).

(** [str.isspace] on one code point: the characters [str.strip] removes. *)
Definition is_space (c : char) : bool :=
  ((9 <=? c) && (c <=? 13) || (28 <=? c) && (c <=? 32)
   || (c =? 133) || (c =? 160) || (c =? 5760)
   || (8192 <=? c) && (c <=? 8202)
   || (c =? 8232) || (c =? 8233) || (c =? 8239) || (c =? 8287)
   || (c =? 12288))%N.

(** [s.lstrip()] *)
Fixpoint lstrip (s : pystr) : pystr :=
  match s with
  | c :: s' => if is_space c then lstrip s' else s
  | [] => []
  end.

(** [s.rstrip()] *)
Definition rstrip (s : pystr) : pystr := rev (lstrip (rev s)).

(** [s.strip()] *)
Definition strip (s : pystr) : pystr := rstrip (lstrip s).

(** [sep.join(parts)]; also used on lists of lines. *)
Fixpoint join {A} (sep : list A) (parts : list (list A)) : list A :=
  match parts with
  | [] => []
  | [p] => p
  | p :: ps => p ++ sep ++ join sep ps
  end.

(** [str(n)] for an [int]. *)
Definition str_of_uint (d : Decimal.uint) : pystr :=
  lit (DecimalString.NilEmpty.string_of_uint d).

Definition str_of_nat (n : nat) : pystr := str_of_uint (Nat.to_uint n).

Definition str_of_Z (n : Z) : pystr :=
  match n with
  | Z0 => lit "0"
  | Zpos p => str_of_uint (Pos.to_uint p)
  | Zneg p => lit "-" ++ str_of_uint (Pos.to_uint p)
  end.

(** ** Python values *)

Inductive value : Type :=
| VNone
| VBool (b : bool)
| VInt (n : Z)
| VStr (s : pystr)
| VList (xs : list value)
| VDict (kvs : list (pystr * value)).

(** [ChangelogEntry = dict[str, Any]]: the items of the dict. *)
Definition entry := list (pystr * value).

(** [d[k]] when present. *)
Fixpoint dict_lookup (k : pystr) (kvs : list (pystr * value)) : option value :=
  match kvs with
  | [] => None
  | (k', v) :: rest => if decide (k = k') then Some v else dict_lookup k rest
  end.

(** [d.get(k)] *)
Definition py_get (k : pystr) (d : list (pystr * value)) : value :=
  default VNone (dict_lookup k d).

Definition is_none (v : value) : bool :=
  match v with VNone => true | _ => false end.

(** Truth value of an object, as [or], [not] and [if] test it. *)
Definition truthy (v : value) : bool :=
  match v with
  | VNone => false
  | VBool b => b
  | VInt n => negb (n =? 0)
  | VStr s => negb (bool_decide (s = []))
  | VList xs => negb (bool_decide (xs = []))
  | VDict kvs => negb (bool_decide (kvs = []))
  end.

(** [a or b] *)
Definition py_or (a b : value) : value := if truthy a then a else b.

(** [a == b]: booleans compare as the integers 0 and 1, lists element by
    element, dicts by size and by the value under each key. *)
Fixpoint py_eq (a b : value) {struct a} : bool :=
  match a, b with
  | VNone, VNone => true
  | VBool x, VBool y => bool_decide (x = y)
  | VBool x, VInt n => Z.b2z x =? n
  | VInt m, VBool y => m =? Z.b2z y
  | VInt m, VInt n => m =? n
  | VStr s, VStr t => bool_decide (s = t)
  | VList xs, VList ys =>
      (fix go (xs ys : list value) : bool :=
         match xs, ys with
         | [], [] => true
         | x :: xs', y :: ys' => py_eq x y && go xs' ys'
         | _, _ => false
         end) xs ys
  | VDict d, VDict e =>
      (length d =? length e)%nat &&
      (fix go (d : list (pystr * value)) : bool :=
         match d with
         | [] => true
         | (k, v) :: d' =>
             match dict_lookup k e with
             | Some w => py_eq v w
             | None => false
             end && go d'
         end) d
  | _, _ => false
  end.

(** [old_entry != entry] on two dicts. *)
Definition entry_ne (a b : entry) : bool := negb (py_eq (VDict a) (VDict b)).

(** No key occurs twice in a dict, at any depth. *)
Fixpoint wf_value (v : value) : bool :=
  match v with
  | VList xs =>
      (fix go (xs : list value) : bool :=
         match xs with [] => true | x :: xs' => wf_value x && go xs' end) xs
  | VDict kvs =>
      bool_decide (NoDup (map fst kvs)) &&
      (fix go (kvs : list (pystr * value)) : bool :=
         match kvs with
         | [] => true
         | (_, x) :: kvs' => wf_value x && go kvs'
         end) kvs
  | _ => true
  end.

Definition wf_entry (e : entry) : bool := wf_value (VDict e).

(** ** Exceptions *)

Inductive exn : Type :=
| TypeError                 (* unhashable type *)
| HTTPError (status : Z).   (* requests.HTTPError from raise_for_status *)

Inductive result (A : Type) : Type :=
| Ok (a : A)
| Raise (e : exn).
Arguments Ok {A} a.
Arguments Raise {A} e.

#[global] Instance result_ret : MRet result := fun _ a => Ok a.

#[global] Instance result_bind : MBind result := fun _ _ f m =>
  match m with Ok a => f a | Raise e => Raise e end.

(** A [for] loop over a list whose body updates local state and may raise. *)
Fixpoint for_each {S A : Type} (body : S -> A -> result S)
    (l : list A) (s : S) : result S :=
  match l with
  | [] => Ok s
  | x :: rest => s' ← body s x; for_each body rest s'
  end.

(** ** Hashing: the keys of sets, Counters and dicts

    Two hashable values are the same key exactly when they are [==]; [True]
    and [1] are one key.  Lists and dicts are unhashable. *)

Inductive key : Type :=
| KNone
| KInt (n : Z)
| KStr (s : pystr).

#[global] Instance key_eq_dec : EqDecision key.
Proof. solve_decision. Defined.

#[global] Instance key_countable : Countable key.
Proof.
  refine (inj_countable'
    (fun k => match k with
              | KNone => inl ()
              | KInt n => inr (inl n)
              | KStr s => inr (inr s)
              end)
    (fun x => match x with
              | inl _ => KNone
              | inr (inl n) => KInt n
              | inr (inr s) => KStr s
              end) _).
  intros []; reflexivity.
Defined.

Definition py_hash (v : value) : result key :=
  match v with
  | VNone => Ok KNone
  | VBool b => Ok (KInt (Z.b2z b))
  | VInt n => Ok (KInt n)
  | VStr s => Ok (KStr s)
  | VList _ | VDict _ => Raise TypeError
  end.

(** [set(vs)] *)
Definition py_set (vs : list value) : result (gset key) :=
  for_each (fun s v => k ← py_hash v; Ok (s ∪ {[k]})) vs ∅.

(** [v in s] for a set [s] *)
Definition py_in (v : value) (s : gset key) : result bool :=
  k ← py_hash v; Ok (bool_decide (k ∈ s)).

(** [Counter(vs)] *)
Definition py_counter (vs : list value) : result (gmap key nat) :=
  for_each (fun c v => k ← py_hash v; Ok (<[k := S (default 0%nat (c !! k))]> c))
    vs ∅.

(** [c.get(v, 0)] *)
Definition counter_get (c : gmap key nat) (v : value) : result nat :=
  k ← py_hash v; Ok (default 0%nat (c !! k)).

(** ** Delta engine *)

Definition entry_id (e : entry) : value := py_get (lit "id") e.

(** [[e.get("id") for e in entries if e.get("id") is not None]] *)
Definition ids_of (entries : list entry) : list value :=
  map entry_id (filter (fun e => negb (is_none (entry_id e))) entries).

(** The loop collecting [added], and with the roles of the two lists
    exchanged the one collecting [removed]. *)
Definition absent_loop (other_id_set : gset key) (entries : list entry)
  : result (list entry) :=
  for_each (fun acc entry =>
      let entry_id := py_get (lit "id") entry in
      if is_none entry_id then Ok acc
      else
        b ← py_in entry_id other_id_set;
        if negb b then Ok (acc ++ [entry]) else Ok acc)
    entries [].

(** The loop filling [old_unique_by_id]. *)
Definition unique_loop (old_counts : gmap key nat) (old_entries : list entry)
  : result (gmap key entry) :=
  for_each (fun (m : gmap key entry) entry =>
      let entry_id := py_get (lit "id") entry in
      if is_none entry_id then Ok m
      else
        n ← counter_get old_counts entry_id;
        if (n =? 1)%nat then k ← py_hash entry_id; Ok (<[k := entry]> m)
        else Ok m)
    old_entries ∅.

(** The loop collecting [modified]. *)
Definition modified_loop (old_counts new_counts : gmap key nat)
    (old_unique_by_id : gmap key entry) (new_entries : list entry)
  : result (list entry) :=
  for_each (fun acc entry =>
      let entry_id := py_get (lit "id") entry in
      if is_none entry_id then Ok acc
      else
        n_old ← counter_get old_counts entry_id;
        if negb (n_old =? 1)%nat then Ok acc
        else
          n_new ← counter_get new_counts entry_id;
          if negb (n_new =? 1)%nat then Ok acc
          else
            k ← py_hash entry_id;
            match old_unique_by_id !! k with
            | None => Ok acc
            | Some old_entry =>
                if entry_ne old_entry entry then Ok (acc ++ [entry])
                else Ok acc
            end)
    new_entries [].

Definition diff_entries (old_entries new_entries : list entry)
  : result (list entry * list entry * list entry) :=
  let old_ids := ids_of old_entries in
  let new_ids := ids_of new_entries in
  old_id_set ← py_set old_ids;
  new_id_set ← py_set new_ids;
  added ← absent_loop old_id_set new_entries;
  old_counts ← py_counter old_ids;
  new_counts ← py_counter new_ids;
  old_unique_by_id ← unique_loop old_counts old_entries;
  modified ← modified_loop old_counts new_counts old_unique_by_id new_entries;
  removed ← absent_loop new_id_set old_entries;
  Ok (added, modified, removed).

(** ** Summary formatter *)

Definition DISCORD_SPLIT_LIMIT : Z := 2000.

(** [len(s)] *)
Definition py_len (s : pystr) : Z := Z.of_nat (length s).

(** [s[:n]] for [0 <= n] *)
Definition slice_to (n : Z) (s : pystr) : pystr := firstn (Z.to_nat n) s.

(** [s[: DISCORD_SPLIT_LIMIT - 100].rstrip() + " [...]"] *)
Definition truncated (s : pystr) : pystr :=
  rstrip (slice_to (DISCORD_SPLIT_LIMIT - 100) s) ++ lit " [...]".

Definition TYPES_TO_EMOJI : list (pystr * pystr) :=
  [ (lit "Fix", [0x1F41B%N]); (lit "Add", [0x1F195%N]);
    (lit "Remove", [0x274C%N]); (lit "Tweak", [0x2692%N; 0xFE0F%N]) ].

Definition TYPES_TO_UA : list (pystr * pystr) :=
  [ (lit "Fix", [0x412; 0x438; 0x43F; 0x440; 0x430; 0x432; 0x43B; 0x435;
                 0x43D; 0x43E]%N);
    (lit "Add", [0x414; 0x43E; 0x434; 0x430; 0x43D; 0x43E]%N);
    (lit "Remove", [0x412; 0x438; 0x434; 0x430; 0x43B; 0x435; 0x43D; 0x43E]%N);
    (lit "Tweak", [0x417; 0x43C; 0x456; 0x43D; 0x435; 0x43D; 0x43E]%N) ].

(** The question-mark emoji of an unknown change type. *)
Definition UNKNOWN_EMOJI : pystr := [0x2753%N].

(** The author and label sentinel, Ukrainian for "unknown". *)
Definition UNKNOWN : pystr :=
  [0x41D; 0x435; 0x432; 0x456; 0x434; 0x43E; 0x43C; 0x43E]%N.

(** The bullet U+2022. *)
Definition BULLET : pystr := [0x2022%N].

(** [table.get(k, dflt)] on a table of strings. *)
Fixpoint table_get (table : list (pystr * pystr)) (k dflt : pystr) : pystr :=
  match table with
  | [] => dflt
  | (k', v) :: rest => if decide (k = k') then v else table_get rest k dflt
  end.

Definition CANONICAL_TYPES : list pystr :=
  [lit "Add"; lit "Fix"; lit "Remove"; lit "Tweak"].

Section Formatter.

(** [repr] of a list or a dict, which [str] returns for them.  How Python
    quotes the strings inside is not modelled; the function is taken as
    given. *)
Context (py_repr : value -> pystr).

(** [str(v)] *)
Definition py_str (v : value) : pystr :=
  match v with
  | VNone => lit "None"
  | VBool true => lit "True"
  | VBool false => lit "False"
  | VInt n => str_of_Z n
  | VStr s => s
  | VList _ | VDict _ => py_repr v
  end.

(** [str(d.get(k) or dflt)] *)
Definition str_field (k : pystr) (dflt : pystr) (d : list (pystr * value))
  : pystr :=
  py_str (py_or (py_get k d) (VStr dflt)).

(** The body of the inner loop of [count_change_types]. *)
Definition count_change (counts : gmap pystr nat) (change : value)
  : gmap pystr nat :=
  match change with
  | VDict c =>
      let change_type := str_field (lit "type") [] c in
      if bool_decide (change_type = []) then counts
      else <[change_type := (default 0 (counts !! change_type) + 1)%nat]> counts
  | _ => counts
  end.

Definition count_change_types (entries : list entry) : gmap pystr nat :=
  foldl (fun counts entry =>
           match py_get (lit "changes") entry with
           | VList changes => foldl count_change counts changes
           | _ => counts
           end)
    (<[lit "Add" := 0%nat]> (<[lit "Fix" := 0%nat]>
      (<[lit "Remove" := 0%nat]> (<[lit "Tweak" := 0%nat]> ∅))))
    entries.

Definition render_change_type_summary (entries : list entry) : pystr :=
  let counts := count_change_types entries in
  let parts :=
    foldl (fun parts change_type =>
             let count := default 0%nat (counts !! change_type) in
             if (count =? 0)%nat then parts
             else
               let emoji := table_get TYPES_TO_EMOJI change_type UNKNOWN_EMOJI in
               parts ++ [emoji ++ lit " " ++ str_of_nat count])
      [] CANONICAL_TYPES in
  join ([32%N] ++ BULLET ++ [32%N]) parts.

(** [by_author.setdefault(author, []).append(entry)] on an [OrderedDict],
    kept as the list of its items in insertion order. *)
Fixpoint setdefault_append (author : pystr) (e : entry)
    (by_author : list (pystr * list entry)) : list (pystr * list entry) :=
  match by_author with
  | [] => [(author, [e])]
  | (a, es) :: rest =>
      if decide (a = author) then (a, es ++ [e]) :: rest
      else (a, es) :: setdefault_append author e rest
  end.

Definition entry_author (e : entry) : pystr :=
  str_field (lit "author") UNKNOWN e.

(** The body of the loop over [changes]. *)
Definition append_change_line (message_lines : list pystr) (change : value)
  : list pystr :=
  match change with
  | VDict c =>
      let change_type := str_field (lit "type") [] c in
      let emoji := table_get TYPES_TO_EMOJI change_type UNKNOWN_EMOJI in
      let label :=
        table_get TYPES_TO_UA change_type
          (if bool_decide (change_type = []) then UNKNOWN else change_type) in
      let message := strip (str_field (lit "message") [] c) in
      if bool_decide (message = []) then message_lines
      else
        let message :=
          if DISCORD_SPLIT_LIMIT <? py_len message then truncated message
          else message in
        message_lines ++
          [BULLET ++ lit " " ++ emoji ++ lit " " ++ label ++ lit ": "
             ++ message ++ [10%N]]
  | _ => message_lines
  end.

(** The body of the loop over [author_entries]. *)
Definition append_entry_lines (message_lines : list pystr) (e : entry)
  : list pystr :=
  match py_get (lit "changes") e with
  | VList changes => foldl append_change_line message_lines changes
  | _ => message_lines
  end.

(** The body of the loop over [by_author.items()]; the state is
    [(message_lines, first)]. *)
Definition append_author_lines (state : list pystr * bool)
    (item : pystr * list entry) : list pystr * bool :=
  let '(message_lines, first) := state in
  let '(author, author_entries) := item in
  let message_lines :=
    if negb first then message_lines ++ [[10%N]] else message_lines in
  let message_lines :=
    message_lines ++ [lit "**" ++ author ++ lit "**:" ++ [10%N]] in
  (foldl append_entry_lines message_lines author_entries, false).

Definition changelog_entries_to_message_lines (entries : list entry)
  : list pystr :=
  let by_author :=
    foldl (fun by_author e => setdefault_append (entry_author e) e by_author)
      [] entries in
  fst (foldl append_author_lines ([], true) by_author).

End Formatter.

(** ** Delivery pipeline

    The webhook is a script: the responses the server will give, in order.
    What the script does to the world is its trace of events.  A run ends
    by returning, by raising, or [Pending] when the script is used up while
    the code still waits for a response.  Output on stdout is not
    recorded. *)

(** What the retry loop reads from a response.  [json_retry_after] is
    [resp.json().get("retry_after")] ([None] also when the body is not
    JSON); [header_retry_after] is the [Retry-After] header.  Both are kept
    as the number [float] makes of them, a rational here; a value that
    [float] rejects is not modelled. *)
Record response : Type := {
  status_code : Z;
  json_retry_after : option Q;
  header_retry_after : option Q;
}.

(** [get_discord_body(content)] *)
Record discord_body : Type := {
  content : pystr;
  allowed_mentions_parse : list pystr;
  flags : Z;
}.

Definition get_discord_body (content : pystr) : discord_body :=
  {| content := content; allowed_mentions_parse := []; flags := Z.shiftl 1 2 |}.

Inductive event : Type :=
| EvSend (lines : list pystr)                 (* send_discord_webhook called *)
| EvPost (url : pystr) (body : discord_body)  (* requests.post *)
| EvSleep (seconds : Q).                      (* time.sleep *)

Inductive outcome (A : Type) : Type :=
| Done (a : A) (rest : list response)
| Raised (e : exn)
| Pending.
Arguments Done {A} a rest.
Arguments Raised {A} e.
Arguments Pending {A}.

Definition io (A : Type) : Type := list response -> list event * outcome A.

Definition io_ret {A} (a : A) : io A := fun script => ([], Done a script).

Definition io_bind {A B} (m : io A) (k : A -> io B) : io B := fun script =>
  match m script with
  | (evs, Done a rest) => let '(evs', o) := k a rest in (evs ++ evs', o)
  | (evs, Raised e) => (evs, Raised e)
  | (evs, Pending) => (evs, Pending)
  end.

Definition emit (ev : event) : io unit := fun script => ([ev], Done tt script).

#[global] Instance io_mret : MRet io := @io_ret.

#[global] Instance io_mbind : MBind io := fun _ _ k m => io_bind m k.

(** [max(x, 0.0)] *)
Definition floor0 (x : Q) : Q := if Qle_bool 0 x then x else 0%Q.

(** [resp.raise_for_status()] of [requests]: raises for 4xx and 5xx only. *)
Definition raise_for_status (status : Z) : result unit :=
  if (400 <=? status) && (status <? 600) then Raise (HTTPError status)
  else Ok tt.

(** The [while True] loop of [send_discord_webhook]; [attempt] is its value
    on entry to the iteration.  Each iteration consumes one response. *)
Fixpoint webhook_loop (discord_webhook_url : pystr) (body : discord_body)
    (attempt : Z) (script : list response) : list event * outcome unit :=
  match script with
  | [] => ([], Pending)
  | resp :: rest =>
      let attempt := attempt + 1 in
      let post := EvPost discord_webhook_url body in
      let status := status_code resp in
      if (status =? 200) || (status =? 204) then ([post], Done tt rest)
      else if status =? 429 then
        let retry_after :=
          match json_retry_after resp with
          | Some r => r
          | None => default 1%Q (header_retry_after resp)
          end in
        let '(evs, o) := webhook_loop discord_webhook_url body attempt rest in
        (post :: EvSleep (floor0 retry_after) :: evs, o)
      else if ((status =? 500) || (status =? 502) || (status =? 503)
               || (status =? 504)) && (attempt <? 6) then
        let backoff := Z.min (2 ^ attempt) 30 in
        let '(evs, o) := webhook_loop discord_webhook_url body attempt rest in
        (post :: EvSleep (inject_Z backoff) :: evs, o)
      else
        match raise_for_status status with
        | Raise e => ([post], Raised e)
        | Ok _ =>
            let '(evs, o) := webhook_loop discord_webhook_url body attempt rest in
            (post :: evs, o)
        end
  end.

Definition send_discord_webhook (discord_webhook_url : pystr)
    (lines : list pystr) : io unit :=
  emit (EvSend lines);;
  webhook_loop discord_webhook_url (get_discord_body (concat lines)) 0.

(** The [for] loop of [send_message_lines], from the state
    [(chunk_lines, chunk_length)], followed by the final flush. *)
Fixpoint send_loop (discord_webhook_url : pystr) (message_delay_seconds : Q)
    (message_lines : list pystr) (chunk_lines : list pystr) (chunk_length : Z)
  : io unit :=
  match message_lines with
  | [] =>
      if bool_decide (chunk_lines = []) then io_ret tt
      else send_discord_webhook discord_webhook_url chunk_lines
  | line :: rest =>
      let line :=
        if DISCORD_SPLIT_LIMIT <? py_len line then truncated line else line in
      let line_length := py_len line in
      let new_chunk_length := chunk_length + line_length in
      if DISCORD_SPLIT_LIMIT <? new_chunk_length then
        (if bool_decide (chunk_lines = []) then io_ret tt
         else
           send_discord_webhook discord_webhook_url chunk_lines;;
           emit (EvSleep (floor0 message_delay_seconds)));;
        send_loop discord_webhook_url message_delay_seconds rest
          [line] line_length
      else
        send_loop discord_webhook_url message_delay_seconds rest
          (chunk_lines ++ [line]) new_chunk_length
  end.

Definition send_message_lines (discord_webhook_url : pystr)
    (message_lines : list pystr) (message_delay_seconds : Q) : io unit :=
  send_loop discord_webhook_url message_delay_seconds message_lines [] 0.

(** ** Specification vocabulary for the delta engine *)

(** The entry carries an id that is not [None]. *)
Definition has_id (e : entry) : bool := negb (is_none (entry_id e)).

(** The id [v] is in the set of ids of [es]. *)
Definition id_in (v : value) (es : list entry) : bool :=
  existsb (fun w => py_eq w v) (ids_of es).

(** How often the id [v] occurs among the ids of [es] that are not [None]. *)
Definition multiplicity (v : value) (es : list entry) : nat :=
  length (filter (fun w => py_eq w v) (ids_of es)).

(** The entries of [es] whose id is [v]. *)
Definition with_id (v : value) (es : list entry) : list entry :=
  filter (fun o => has_id o && py_eq (entry_id o) v) es.

(** Entries of [new] whose id is absent from [old]. *)
Definition added_of (old new : list entry) : list entry :=
  filter (fun e => has_id e && negb (id_in (entry_id e) old)) new.

(** Entries of [old] whose id is absent from [new]. *)
Definition removed_of (old new : list entry) : list entry :=
  filter (fun e => has_id e && negb (id_in (entry_id e) new)) old.

(** The entry's id occurs once in each list and the old entry under that id
    differs from it. *)
Definition is_modified (old new : list entry) (e : entry) : bool :=
  has_id e
  && (multiplicity (entry_id e) old =? 1)%nat
  && (multiplicity (entry_id e) new =? 1)%nat
  && match head (with_id (entry_id e) old) with
     | Some o => entry_ne o e
     | None => false
     end.

Definition modified_of (old new : list entry) : list entry :=
  filter (is_modified old new) new.

(** [hash(v)] does not raise. *)
Definition hashable (v : value) : bool :=
  match py_hash v with Ok _ => true | Raise _ => false end.

Definition key_of (v : value) : key :=
  match py_hash v with Ok k => k | Raise _ => KNone end.

(** Every id of the list that is not [None] is hashable. *)
Definition hashable_ids (es : list entry) : bool :=
  forallb hashable (ids_of es).

(** Two entries carry different ids. *)
Definition ids_differ (a b : entry) : Prop :=
  py_eq (entry_id a) (entry_id b) = false.

(** The number of values of [vs] hashing to [k]. *)
Definition key_count (k : key) (vs : list value) : nat :=
  length (filter (fun w => key_of w = k) vs).

(** The entries of [es] whose id hashes to [k]. *)
Definition keyed (k : key) (es : list entry) : list entry :=
  filter (fun o => has_id o && bool_decide (key_of (entry_id o) = k)) es.

(** ** Specification vocabulary for the summary formatter *)

(** The dict of a change item; items that are no dict are skipped. *)
Definition as_dict (c : value) : list (list (pystr * value)) :=
  match c with VDict d => [d] | _ => [] end.



Section FormatterSpec.

Context (py_repr : value -> pystr).

(** The type of a change item, as text; empty when there is none. *)
Definition change_type (c : list (pystr * value)) : pystr :=
  str_field py_repr (lit "type") [] c.



End FormatterSpec.


(** ** Specification vocabulary for the detail lines *)


(** The header line of an author group. *)
Definition author_header (author : pystr) : pystr :=
  lit "**" ++ author ++ lit "**:" ++ [10%N].

Section DetailSpec.

Context (py_repr : value -> pystr).

(** The lines one change item contributes: one, or none. *)
Definition change_lines (change : value) : list pystr :=
  append_change_line py_repr [] change.

(** The detail lines of an entry. *)
Definition detail_lines (e : entry) : list pystr :=
  match py_get (lit "changes") e with
  | VList changes => flat_map change_lines changes
  | _ => []
  end.



End DetailSpec.

(** ** Specification vocabulary for the delivery pipeline *)

(** The line as it is sent: truncated when longer than the limit. *)
Definition fit_line (line : pystr) : pystr :=
  if DISCORD_SPLIT_LIMIT <? py_len line then truncated line else line.

(** The length of the message made of a chunk of lines. *)
Definition chunk_len (chunk : list pystr) : Z := py_len (concat chunk).

(** The chunks handed to [send_discord_webhook], read off a trace. *)
Definition sends (evs : list event) : list (list pystr) :=
  flat_map (fun ev => match ev with EvSend ls => [ls] | _ => [] end) evs.

(** The contents posted, read off a trace. *)
Definition posts (evs : list event) : list pystr :=
  flat_map (fun ev => match ev with EvPost _ b => [content b] | _ => [] end)
    evs.

(** The chunks the loop of [send_message_lines] cuts from the state
    [(chunk_lines, chunk_length)] on, when no delivery fails. *)
Fixpoint chunk_loop (message_lines : list pystr) (chunk_lines : list pystr)
    (chunk_length : Z) : list (list pystr) :=
  match message_lines with
  | [] => if bool_decide (chunk_lines = []) then [] else [chunk_lines]
  | line :: rest =>
      let line := fit_line line in
      if DISCORD_SPLIT_LIMIT <? chunk_length + py_len line then
        (if bool_decide (chunk_lines = []) then [] else [chunk_lines])
        ++ chunk_loop rest [line] (py_len line)
      else chunk_loop rest (chunk_lines ++ [line]) (chunk_length + py_len line)
  end.

Definition chunks_of (message_lines : list pystr) : list (list pystr) :=
  chunk_loop message_lines [] 0.

(** How often a chunk whose length has reached [c] overflows on the
    lines [ls]. *)
Fixpoint splits (c : Z) (ls : list pystr) : nat :=
  match ls with
  | [] => 0
  | l :: rest =>
      if DISCORD_SPLIT_LIMIT <? c + py_len l then S (splits (py_len l) rest)
      else splits (c + py_len l) rest
  end.

(** [covers u ls n]: a chunk filled up to [u] and [n] further chunks can
    take the lines [ls] in order, none exceeding the limit. *)
Inductive covers : Z -> list pystr -> nat -> Prop :=
| covers_nil u : covers u [] 0
| covers_add u l ls n :
    u + py_len l <= DISCORD_SPLIT_LIMIT -> covers (u + py_len l) ls n ->
    covers u (l :: ls) n
| covers_new u ls n : covers 0 ls n -> covers u ls (S n).

(** A response with nothing but its status. *)
Definition status_only (status : Z) : response :=
  {| status_code := status; json_retry_after := None;
     header_retry_after := None |}.

(** In a list of chunks, each chunk is closed only because the first line
    of the next one would have overflowed it. *)
Fixpoint tight (cs : list (list pystr)) : Prop :=
  match cs with
  | [] => True
  | c :: rest =>
      match rest with
      | (l :: _) :: _ => DISCORD_SPLIT_LIMIT < chunk_len c + py_len l
      | _ => True
      end /\ tight rest
  end.

(** ** Sample data *)

(** An entry with an id and one field of content. *)
Definition sample_entry (id : Z) (text : string) : entry :=
  [(lit "id", VInt id); (lit "message", VStr (lit text))].


(** An old list with a duplicated id and an entry without id, and a new list
    that drops id 1, changes id 2, keeps id 3, adds id 4 and keeps one entry
    of the duplicated id 5. *)
Definition sample_old : list entry :=
  [sample_entry 1 "a"; sample_entry 2 "b"; sample_entry 3 "c";
   sample_entry 5 "d"; sample_entry 5 "e"; [(lit "message", VStr (lit "f"))]].

Definition sample_new : list entry :=
  [sample_entry 2 "B"; sample_entry 3 "c"; sample_entry 4 "g";
   sample_entry 5 "h"].

(** An entry whose id is a list, which cannot be hashed. *)
Definition unhashable_entry : entry := [(lit "id", VList [])].

(** Two lines of 1500 characters, a line of 2500 and a short one. *)
Definition sample_lines : list pystr :=
  [replicate 1500 97%N; replicate 2500 98%N; replicate 1500 99%N; lit "abc"].

Definition sample_script : list response :=
  [status_only 204; status_only 204; status_only 204].

(** ** Further vocabulary for the delivery pipeline *)

(** The wait a 429 response asks for: the body's [retry_after], else the
    [Retry-After] header, else one second. *)
Definition retry_after_of (resp : response) : Q :=
  match json_retry_after resp with
  | Some r => r
  | None => default 1%Q (header_retry_after resp)
  end.

(** The statuses the retry loop takes for transient. *)
Definition is_transient (status : Z) : bool :=
  (status =? 500) || (status =? 502) || (status =? 503) || (status =? 504).

(** The trace of delivering chunks to a webhook that accepts each one at
    the first attempt: a pause between two chunks, none after the last. *)
Fixpoint accepted_trace (url : pystr) (delay : Q) (cs : list (list pystr))
  : list event :=
  match cs with
  | [] => []
  | c :: rest =>
      EvSend c :: EvPost url (get_discord_body (concat c))
      :: match rest with
         | [] => []
         | _ => EvSleep (floor0 delay) :: accepted_trace url delay rest
         end
  end.

(** ** The rest of the script

    The functions around the delta engine and the delivery pipeline: the
    changelog filter, the YAML front end, the requests to the code host, the
    message builder and [main].  They raise more kinds of exception; a
    computation without effects returns a [fallible]. *)

Inductive error : Type :=
| Builtin (e : exn)           (* TypeError, HTTPError *)
| AttributeError
| ValueError
| RuntimeError (msg : pystr)
| YAMLError.

Inductive fallible (A : Type) : Type :=
| Success (a : A)
| Failure (e : error).
Arguments Success {A} a.
Arguments Failure {A} e.

#[global] Instance fallible_ret : MRet fallible := fun _ a => Success a.
#[global] Instance fallible_bind : MBind fallible := fun _ _ f m =>
  match m with Success a => f a | Failure e => Failure e end.

(** A [result] of the delta engine, among the other exceptions. *)
Definition of_result {A} (r : result A) : fallible A :=
  match r with Ok a => Success a | Raise e => Failure (Builtin e) end.

(** *** Strings *)

(** [s.startswith(prefix)] *)
Fixpoint startswith (s prefix : pystr) {struct prefix} : bool :=
  match prefix, s with
  | [], _ => true
  | p :: prefix', c :: s' => (c =? p)%N && startswith s' prefix'
  | _ :: _, [] => false
  end.

(** [s.endswith(suffix)] *)
Definition endswith (s suffix : pystr) : bool :=
  startswith (rev s) (rev suffix).

(** [s.lstrip(c)] for a single character [c] *)
Fixpoint lstrip_char (c : char) (s : pystr) : pystr :=
  match s with
  | x :: s' => if (x =? c)%N then lstrip_char c s' else s
  | [] => []
  end.

(** [s.rstrip(c)] for a single character [c] *)
Definition rstrip_char (c : char) (s : pystr) : pystr :=
  rev (lstrip_char c (rev s)).

(** The part of [s] before the first [c], all of [s] when there is none. *)
Fixpoint before_char (c : char) (s : pystr) : pystr :=
  match s with
  | x :: s' => if (x =? c)%N then [] else x :: before_char c s'
  | [] => []
  end.

(** [s.rsplit(c, 1)[-1]]: the part after the last [c]. *)
Definition rsplit_last (c : char) (s : pystr) : pystr :=
  rev (before_char c (rev s)).

(** The slash. *)
Definition SLASH : char := 47%N.

(** The byte-order mark U+FEFF. *)
Definition BOM : char := 0xFEFF%N.

(** *** The changelog filter and the YAML front end *)

Definition DEFAULT_CHANGELOG_DIR : pystr := lit "Resources/Changelog".
Definition DEFAULT_CHANGELOG_EXT : pystr := lit ".yml".

Definition is_changelog_file (path changelog_dir changelog_ext : pystr)
  : bool :=
  let prefix := changelog_dir ++ [SLASH] in
  startswith path prefix && endswith path changelog_ext.

Definition extract_entries (data : value) : list entry :=
  match data with
  | VDict d =>
      match py_get (lit "Entries") d with
      | VList entries => flat_map as_dict entries
      | _ => []
      end
  | _ => []
  end.

Section Yaml.

(** [yaml.safe_load], which fails on text that is not YAML. *)
Context (safe_load : pystr -> fallible value).

Definition parse_yaml (text : option pystr) : fallible value :=
  match text with
  | None => Success (VDict [])
  | Some text =>
      let text := lstrip_char BOM text in
      data ← safe_load text;
      Success (if is_none data then VDict [] else data)
  end.

End Yaml.

(** *** The world of [main]

    The code host and the webhook are each a script of the responses they
    will give.  A run leaves the list of what it did: requests to the code
    host, lines [main] itself prints, and the events of the delivery
    pipeline (whose own output is not recorded). *)

(** What the script reads from a response of the code host: the status,
    [resp.json()] ([None] when the body is not JSON, and [json()] raises a
    [ValueError]) and [resp.text]. *)
Record gh_response : Type := {
  gh_status : Z;
  gh_json : option value;
  gh_text : pystr;
}.

(** The headers the script sets on its session. *)
Definition session : Type := list (pystr * pystr).

(** [session.get(url, headers=..., params=..., timeout=30)] *)
Record request : Type := {
  req_session : session;
  req_url : pystr;
  req_headers : list (pystr * pystr);
  req_params : list (pystr * value);
}.

Record world : Type := {
  github : list gh_response;
  discord : list response;
}.

Inductive action : Type :=
| Get (r : request)
| Print (msg : pystr)
| Discord (ev : event).

Inductive ending (A : Type) : Type :=
| Returned (a : A) (w : world)
| Failed (e : error)
| Waiting.
Arguments Returned {A} a w.
Arguments Failed {A} e.
Arguments Waiting {A}.

Definition prog (A : Type) : Type := world -> list action * ending A.

Definition prog_ret {A} (a : A) : prog A := fun w => ([], Returned a w).

Definition prog_bind {A B} (m : prog A) (k : A -> prog B) : prog B := fun w =>
  match m w with
  | (acts, Returned a w') => let '(acts', o) := k a w' in (acts ++ acts', o)
  | (acts, Failed e) => (acts, Failed e)
  | (acts, Waiting) => (acts, Waiting)
  end.

#[global] Instance prog_mret : MRet prog := @prog_ret.
#[global] Instance prog_mbind : MBind prog := fun _ _ k m => prog_bind m k.

(** [print(msg)] *)
Definition print (msg : pystr) : prog unit := fun w =>
  ([Print msg], Returned tt w).

(** [raise e] *)
Definition throw {A} (e : error) : prog A := fun _ => ([], Failed e).

Definition of_fallible {A} (a : fallible A) : prog A :=
  match a with Success x => prog_ret x | Failure e => throw e end.

(** A request to the code host, answered by the next response of its
    script. *)
Definition session_get (r : request) : prog gh_response := fun w =>
  match github w with
  | [] => ([], Waiting)
  | resp :: rest =>
      ([Get r], Returned resp {| github := rest; discord := discord w |})
  end.

(** A run of the delivery pipeline on the webhook's script. *)
Definition deliver {A} (m : io A) : prog A := fun w =>
  match m (discord w) with
  | (evs, Done a rest) =>
      (map Discord evs, Returned a {| github := github w; discord := rest |})
  | (evs, Raised e) => (map Discord evs, Failed (Builtin e))
  | (evs, Pending) => (map Discord evs, Waiting)
  end.

(** A loop over a list whose body is a program. *)
Fixpoint prog_each {S A} (body : S -> A -> prog S) (l : list A) (s : S)
  : prog S :=
  match l with
  | [] => prog_ret s
  | x :: rest => s' ← body s x; prog_each body rest s'
  end.

(** [resp.raise_for_status()] on a response of the code host. *)
Definition gh_raise_for_status (resp : gh_response) : prog unit :=
  of_fallible (of_result (raise_for_status (gh_status resp))).

(** [resp.json()] *)
Definition gh_json_of (resp : gh_response) : prog value :=
  match gh_json resp with
  | Some v => prog_ret v
  | None => throw ValueError
  end.

(** [v.get(k)] on any object: only a dict has the method. *)
Definition get_method (v : value) (k : pystr) : fallible value :=
  match v with
  | VDict d => Success (py_get k d)
  | _ => Failure AttributeError
  end.

(** *** Requests to the code host *)

Definition github_session (token : pystr) : session :=
  [ (lit "Authorization", lit "Bearer " ++ token);
    (lit "Accept", lit "application/vnd.github+json");
    (lit "X-GitHub-Api-Version", lit "2022-11-28") ].

Definition github_get_json (s : session) (url : pystr) : prog value :=
  resp ← session_get {| req_session := s; req_url := url;
                        req_headers := []; req_params := [] |};
  gh_raise_for_status resp;;
  gh_json_of resp.

(** The message emoji and the Ukrainian texts of [build_message_lines]. *)
Definition TITLE_HEAD : pystr :=
  [0x1F191; 0x20; 0x2A; 0x2A; 0x41E; 0x43D; 0x43E; 0x432; 0x43B; 0x435;
   0x43D; 0x43D; 0x44F; 0x20; 0x441; 0x43F; 0x438; 0x441; 0x43A; 0x443;
   0x20; 0x437; 0x43C; 0x456; 0x43D; 0x20; 0x2014; 0x20; 0x50; 0x52; 0x20;
   0x5B; 0x23]%N.

Definition TITLE_TAIL : pystr :=
  [0x29; 0x20; 0x437; 0x43C; 0x435; 0x440; 0x434; 0x436; 0x435; 0x43D;
   0x43E; 0x2A; 0x2A; 0xA]%N.

Definition FILE_HEAD : pystr := [0x1F4C4; 0x20; 0x2A; 0x2A]%N.

Definition SUMMARY_HEAD : pystr :=
  [0x41F; 0x456; 0x434; 0x441; 0x443; 0x43C; 0x43E; 0x43A; 0x3A; 0x20]%N.

Definition REMOVED_HEAD : pystr :=
  [0x26A0; 0xFE0F; 0x20; 0x417; 0x456; 0x20; 0x441; 0x43F; 0x438; 0x441;
   0x43A; 0x443; 0x20; 0x437; 0x43C; 0x456; 0x43D; 0x20; 0x43F; 0x440;
   0x438; 0x431; 0x440; 0x430; 0x43D; 0x43E; 0x20]%N.

Definition REMOVED_TAIL : pystr :=
  [0x20; 0x437; 0x430; 0x43F; 0x438; 0x441; 0x28; 0x456; 0x432; 0x29; 0x20;
   0x443; 0x20; 0x446; 0x44C; 0x43E; 0x43C; 0x443; 0x20; 0x444; 0x430;
   0x439; 0x43B; 0x456; 0x2E; 0xA]%N.

Record ChangelogFileDelta : Type := {
  path : pystr;
  added : list entry;
  modified : list entry;
  removed : list entry;
}.

Section Host.

(** The module constant [GITHUB_API_URL], and the library functions that are
    taken as given: [repr] of lists and dicts, [yaml.safe_load] and
    [urllib.parse.quote] with [safe="/"]. *)
Context (GITHUB_API_URL : pystr)
        (py_repr : value -> pystr)
        (safe_load : pystr -> fallible value)
        (quote : pystr -> pystr).

(** The body of [for item in batch] in [list_pr_files]. *)
Fixpoint collect_filenames (items : list value) (files : list pystr)
  : fallible (list pystr) :=
  match items with
  | [] => Success files
  | item :: rest =>
      filename ← get_method item (lit "filename");
      collect_filenames rest
        (if truthy filename then files ++ [py_str py_repr filename]
         else files)
  end.

(** [for item in batch]: a list gives its items, a dict its keys, a string
    its characters; nothing else can be iterated. *)
Definition iterate_batch (batch : value) (files : list pystr)
  : fallible (list pystr) :=
  match batch with
  | VList items => collect_filenames items files
  | VDict kvs => collect_filenames (map (fun kv => VStr (fst kv)) kvs) files
  | VStr s => collect_filenames (map (fun c => VStr [c]) s) files
  | VNone | VBool _ | VInt _ => Failure (Builtin TypeError)
  end.

(** The request for one page of the files of a pull request. *)
Definition files_request (s : session) (github_repository : pystr)
    (pr_number page : Z) : request :=
  {| req_session := s;
     req_url := GITHUB_API_URL ++ lit "/repos/" ++ github_repository
                ++ lit "/pulls/" ++ str_of_Z pr_number ++ lit "/files";
     req_headers := [];
     req_params := [(lit "per_page", VInt 100); (lit "page", VInt page)] |}.

(** The [while True] loop of [list_pr_files], from the state
    [(files, page)].  Each round uses one response of the code host. *)
Fixpoint list_pr_files_loop (s : session) (github_repository : pystr)
    (pr_number : Z) (files : list pystr) (page : Z)
    (gh : list gh_response) (d : list response)
  : list action * ending (list pystr) :=
  match gh with
  | [] => ([], Waiting)
  | resp :: rest =>
      let get := Get (files_request s github_repository pr_number page) in
      match raise_for_status (gh_status resp) with
      | Raise e => ([get], Failed (Builtin e))
      | Ok _ =>
          match gh_json resp with
          | None => ([get], Failed ValueError)
          | Some batch =>
              if negb (truthy batch) then
                ([get], Returned files {| github := rest; discord := d |})
              else
                match iterate_batch batch files with
                | Failure e => ([get], Failed e)
                | Success files =>
                    let '(acts, o) :=
                      list_pr_files_loop s github_repository pr_number files
                        (page + 1) rest d in
                    (get :: acts, o)
                end
          end
      end
  end.

Definition list_pr_files (s : session) (github_repository : pystr)
    (pr_number : Z) : prog (list pystr) := fun w =>
  list_pr_files_loop s github_repository pr_number [] 1 (github w) (discord w).

Definition get_repo_file_text (s : session) (github_repository path : pystr)
    (sha : value) : prog (option pystr) :=
  let encoded_path := quote path in
  let headers := [(lit "Accept", lit "application/vnd.github.raw")] in
  resp ← session_get
           {| req_session := s;
              req_url := GITHUB_API_URL ++ lit "/repos/" ++ github_repository
                         ++ lit "/contents/" ++ encoded_path;
              req_headers := headers;
              req_params := [(lit "ref", sha)] |};
  if gh_status resp =? 404 then mret None
  else
    gh_raise_for_status resp;;
    mret (Some (gh_text resp)).

(** The body of the loop over [deltas] in [build_message_lines]. *)
Definition append_delta_lines (lines : list pystr) (delta : ChangelogFileDelta)
  : list pystr :=
  let entries_to_report := added delta ++ modified delta in
  let file_name := rsplit_last SLASH (path delta) in
  let lines :=
    lines ++ [FILE_HEAD ++ file_name ++ lit "** (`" ++ path delta
                ++ lit "`)" ++ [10%N]] in
  let summary := render_change_type_summary py_repr entries_to_report in
  let lines :=
    if bool_decide (summary = []) then lines
    else lines ++ [SUMMARY_HEAD ++ summary ++ [10%N]] in
  let lines :=
    lines ++ changelog_entries_to_message_lines py_repr entries_to_report in
  let lines :=
    if bool_decide (removed delta = []) then lines
    else lines ++ [REMOVED_HEAD ++ str_of_nat (length (removed delta))
                     ++ REMOVED_TAIL] in
  lines ++ [[10%N]].

Definition build_message_lines (pr_number : Z) (pr_title pr_url : value)
    (deltas : list ChangelogFileDelta) : list pystr :=
  let title_line :=
    TITLE_HEAD ++ str_of_Z pr_number ++ lit "](" ++ py_str py_repr pr_url
      ++ TITLE_TAIL in
  let lines := [title_line] in
  let lines :=
    if truthy pr_title then lines ++ [py_str py_repr pr_title ++ [10%N]]
    else lines in
  let lines := lines ++ [[10%N]] in
  foldl append_delta_lines lines deltas.

(** The body of the loop over [changelog_files] in [main]. *)
Definition append_file_delta (gh : session) (github_repository : pystr)
    (base_sha merge_sha : value) (deltas : list ChangelogFileDelta)
    (path : pystr) : prog (list ChangelogFileDelta) :=
  old_text ← get_repo_file_text gh github_repository path base_sha;
  new_text ← get_repo_file_text gh github_repository path merge_sha;
  old_data ← of_fallible (parse_yaml safe_load old_text);
  let old_entries := extract_entries old_data in
  new_data ← of_fallible (parse_yaml safe_load new_text);
  let new_entries := extract_entries new_data in
  delta ← of_fallible (of_result (diff_entries old_entries new_entries));
  let '(added, modified, removed) := delta in
  if bool_decide (added = []) && bool_decide (modified = [])
     && bool_decide (removed = [])
  then mret deltas
  else mret (deltas ++ [{| path := path; added := added;
                           modified := modified; removed := removed |}]).

(** [main], once the configuration is read. *)
Definition run (discord_webhook_url github_repository : pystr)
    (gh : session) (pr_number : Z) (changelog_dir changelog_ext : pystr)
    (message_delay_seconds : Q) : prog unit :=
  pr ← github_get_json gh
         (GITHUB_API_URL ++ lit "/repos/" ++ github_repository
            ++ lit "/pulls/" ++ str_of_Z pr_number);
  merged ← of_fallible
             (m ← get_method pr (lit "merged");
              if truthy m then Success true
              else m_at ← get_method pr (lit "merged_at");
                   Success (truthy m_at));
  if negb merged then print (lit "PR is not merged, skipping")
  else
    title ← of_fallible (get_method pr (lit "title"));
    let pr_title := py_or title (VStr []) in
    html_url ← of_fallible (get_method pr (lit "html_url"));
    let pr_url :=
      py_or html_url
        (VStr (lit "https://github.com/" ++ github_repository
                 ++ lit "/pull/" ++ str_of_Z pr_number)) in
    base ← of_fallible
             match pr with
             | VDict d =>
                 Success (default (VDict []) (dict_lookup (lit "base") d))
             | _ => Failure AttributeError
             end;
    base_sha ← of_fallible (get_method base (lit "sha"));
    merge_sha ← of_fallible (get_method pr (lit "merge_commit_sha"));
    if negb (truthy base_sha) || negb (truthy merge_sha) then
      print (lit "Missing base.sha or merge_commit_sha, skipping")
    else
      changed_files ← list_pr_files gh github_repository pr_number;
      let changelog_files :=
        List.filter (fun f => is_changelog_file f changelog_dir changelog_ext)
          changed_files in
      if bool_decide (changelog_files = []) then
        print (lit "No changelog files changed in PR, skipping")
      else
        deltas ← prog_each
                   (append_file_delta gh github_repository base_sha merge_sha)
                   changelog_files [];
        if bool_decide (deltas = []) then
          print (lit ("Changelog files changed but no Entries delta "
                      ++ "detected, skipping"))
        else
          let lines := build_message_lines pr_number pr_title pr_url deltas in
          deliver (send_message_lines discord_webhook_url lines
                     message_delay_seconds).

End Host.

Section Main.

(** The process environment, and [int] and [float] on a string ([None] when
    they raise [ValueError]). *)
Context (env : gmap pystr pystr)
        (py_repr : value -> pystr)
        (safe_load : pystr -> fallible value)
        (quote : pystr -> pystr)
        (py_int : pystr -> option Z)
        (py_float : pystr -> option Q).

(** The module constant, read from the environment when the module is
    loaded. *)
Definition GITHUB_API_URL : pystr :=
  default (lit "https://api.github.com") (env !! lit "GITHUB_API_URL").

Definition main : prog unit :=
  match env !! lit "DISCORD_WEBHOOK_URL" with
  | None | Some [] =>
      print (lit "No DISCORD_WEBHOOK_URL set, skipping Discord send")
  | Some discord_webhook_url =>
  match env !! lit "GITHUB_TOKEN" with
  | None | Some [] => throw (RuntimeError (lit "GITHUB_TOKEN is required"))
  | Some github_token =>
  match env !! lit "GITHUB_REPOSITORY" with
  | None | Some [] =>
      throw (RuntimeError (lit "GITHUB_REPOSITORY is required"))
  | Some github_repository =>
  match env !! lit "PR_NUMBER" with
  | None | Some [] => throw (RuntimeError (lit "PR_NUMBER is required"))
  | Some pr_number_raw =>
  match py_int pr_number_raw with
  | None => throw ValueError
  | Some pr_number =>
  let changelog_dir :=
    rstrip_char SLASH
      (default DEFAULT_CHANGELOG_DIR (env !! lit "CHANGELOG_DIR")) in
  let changelog_ext :=
    default DEFAULT_CHANGELOG_EXT (env !! lit "CHANGELOG_EXT") in
  match py_float (default (lit "2.0")
                    (env !! lit "DISCORD_MESSAGE_DELAY_SECONDS")) with
  | None => throw ValueError
  | Some message_delay_seconds =>
      run GITHUB_API_URL py_repr safe_load quote discord_webhook_url
        github_repository (github_session github_token) pr_number
        changelog_dir changelog_ext message_delay_seconds
  end end end end end end.

End Main.

(** *** Specification vocabulary for the requests to the code host *)

Section ScriptSpec.

Context (GITHUB_API_URL : pystr) (py_repr : value -> pystr)
        (quote : pystr -> pystr).

(** The file names a page of items contributes: the ["filename"] of each
    item that has one, as text. *)
Definition filenames_of (items : list (list (pystr * value))) : list pystr :=
  flat_map (fun d =>
              let filename := py_get (lit "filename") d in
              if truthy filename then [py_str py_repr filename] else [])
    items.

(** The request for the content of a file at a revision. *)
Definition content_request (s : session) (github_repository path : pystr)
    (sha : value) : request :=
  {| req_session := s;
     req_url := GITHUB_API_URL ++ lit "/repos/" ++ github_repository
                ++ lit "/contents/" ++ quote path;
     req_headers := [(lit "Accept", lit "application/vnd.github.raw")];
     req_params := [(lit "ref", sha)] |}.

(** The requests for the pages [1 .. n] of the files of a pull request. *)
Definition page_requests (s : session) (github_repository : pystr)
    (pr_number : Z) (first : Z) (n : nat) : list action :=
  map (fun i =>
         Get (files_request GITHUB_API_URL s github_repository pr_number
                (first + Z.of_nat i)))
    (seq 0 n).

(** A page of the code host that is served and holds items. *)
Definition served_page (resp : gh_response)
    (items : list (list (pystr * value))) : Prop :=
  raise_for_status (gh_status resp) = Ok tt
  /\ gh_json resp = Some (VList (map VDict items))
  /\ items <> [].

(** The lines of one file of the message: its header, its summary when
    there is one, its detail lines, the warning when entries were removed,
    and a blank line. *)
Definition delta_block (delta : ChangelogFileDelta) : list pystr :=
  let entries_to_report := added delta ++ modified delta in
  let summary := render_change_type_summary py_repr entries_to_report in
  [FILE_HEAD ++ rsplit_last SLASH (path delta) ++ lit "** (`" ++ path delta
     ++ lit "`)" ++ [10%N]]
  ++ (if bool_decide (summary = []) then []
      else [SUMMARY_HEAD ++ summary ++ [10%N]])
  ++ changelog_entries_to_message_lines py_repr entries_to_report
  ++ (if bool_decide (removed delta = []) then []
      else [REMOVED_HEAD ++ str_of_nat (length (removed delta))
              ++ REMOVED_TAIL])
  ++ [[10%N]].

End ScriptSpec.

(** The line ends with a newline. *)
Definition ends_with_newline (line : pystr) : Prop := last line = Some 10%N.

(** *** Specification vocabulary for [main] *)

(** An action of [main] before delivery, made with the session [s]: a
    request on that session, or a line printed. *)
Definition host_action (s : session) (a : action) : Prop :=
  match a with
  | Get r => req_session r = s
  | Print _ => True
  | Discord _ => False
  end.

(** A program that only talks to the code host, on the session [s], and
    leaves the webhook untouched. *)
Definition host_prog {A} (s : session) (m : prog A) : Prop :=
  forall w,
    Forall (host_action s) (fst (m w))
    /\ forall a w', snd (m w) = Returned a w' -> discord w' = discord w.

(** A program that talks to the code host and then, at most once and at
    the very end, runs the delivery pipeline to [url]. *)
Definition delivering (url : pystr) (s : session) (m : prog unit) : Prop :=
  forall w, exists pre evs,
    fst (m w) = pre ++ map Discord evs
    /\ Forall (host_action s) pre
    /\ (evs = []
        \/ exists lines delay,
             evs = fst (send_message_lines url lines delay (discord w))).

(** The variable is not set, or set to the empty string. *)
Definition unset (env : gmap pystr pystr) (name : pystr) : Prop :=
  env !! name = None \/ env !! name = Some [].

(** ** Sample data for the rest of the script *)

(** A 429 answer that asks for a second and a half. *)
Definition sample_rate_limited : response :=
  {| status_code := 429; json_retry_after := Some (3 # 2)%Q;
     header_retry_after := None |}.

(** A changelog document with one entry that carries an id and one that
    does not. *)
Definition sample_document : value :=
  VDict [(lit "Entries",
          VList [VDict (sample_entry 1 "a");
                 VDict [(lit "message", VStr (lit "f"))]])].

(** Stand-ins for the library functions: a loader that gives [None] for the
    empty text and the sample document for any other, a [quote] that finds
    nothing to quote, and conversions that read every string as 7 and 2.0. *)
Definition sample_safe_load (text : pystr) : fallible value :=
  match text with
  | [] => Success VNone
  | _ => Success sample_document
  end.

Definition sample_repr (v : value) : pystr := lit "?".
Definition sample_quote (p : pystr) : pystr := p.
Definition sample_int (s : pystr) : option Z := Some 7.
Definition sample_float (s : pystr) : option Q := Some 2%Q.

Definition sample_api : pystr := lit "https://api.github.com".

(** Responses of the code host: a page of two files, an empty page, a
    missing file, a served file, a server error and an unmerged pull
    request. *)
Definition sample_items : list (list (pystr * value)) :=
  [[(lit "filename", VStr (lit "Resources/Changelog/a.yml"))];
   [(lit "filename", VStr (lit "README.md"))]].

Definition sample_page : gh_response :=
  {| gh_status := 200; gh_json := Some (VList (map VDict sample_items));
     gh_text := [] |}.

Definition sample_empty_page : gh_response :=
  {| gh_status := 200; gh_json := Some (VList []); gh_text := [] |}.

Definition sample_missing : gh_response :=
  {| gh_status := 404; gh_json := None; gh_text := lit "Not Found" |}.

Definition sample_served : gh_response :=
  {| gh_status := 200; gh_json := None; gh_text := lit "Entries: ..." |}.

Definition sample_failure : gh_response :=
  {| gh_status := 500; gh_json := None; gh_text := [] |}.

Definition sample_unmerged : gh_response :=
  {| gh_status := 200;
     gh_json := Some (VDict [(lit "merged", VBool false);
                             (lit "title", VStr (lit "t"))]);
     gh_text := [] |}.

(** An environment with the webhook only, and one with all that [main]
    requires. *)
Definition sample_env_webhook : gmap pystr pystr :=
  {[ lit "DISCORD_WEBHOOK_URL" := lit "u" ]}.

Definition sample_env : gmap pystr pystr :=
  <[ lit "GITHUB_TOKEN" := lit "t" ]>
    (<[ lit "GITHUB_REPOSITORY" := lit "o/r" ]>
       (<[ lit "PR_NUMBER" := lit "7" ]> sample_env_webhook)).

Definition sample_world : world :=
  {| github := [sample_unmerged]; discord := [] |}.

(** * Properties *)

(** ** Loops *)

Lemma for_each_app {S A} (body : S -> A -> result S) l1 l2 s :
  for_each body (l1 ++ l2) s = for_each body l1 s ≫= for_each body l2.
Proof.
  revert s; induction l1 as [|x l1 IH]; intros s; simpl; [done|].
  destruct (body s x); simpl; [apply IH | done].
Qed.

(** A loop whose body appends the elements passing a test is a filter. *)
Lemma for_each_filter {A} (body : list A -> A -> result (list A))
    (p : A -> bool) l acc :
  (forall acc x, x ∈ l -> body acc x = Ok (if p x then acc ++ [x] else acc)) ->
  for_each body l acc = Ok (acc ++ filter (fun x => p x) l).
Proof.
  revert acc; induction l as [|x l IH]; intros acc Hbody; simpl.
  - by rewrite app_nil_r.
  - rewrite Hbody by left. simpl.
    rewrite IH by (intros; apply Hbody; by right).
    rewrite filter_cons. destruct (p x); simpl; [|done].
    by rewrite <- app_assoc.
Qed.

Lemma filter_ext_in {A} (p q : A -> bool) (l : list A) :
  (forall x, x ∈ l -> p x = q x) ->
  filter (fun x => p x) l = filter (fun x => q x) l.
Proof.
  induction l as [|x l IH]; intros H; [done|].
  rewrite !filter_cons, (H x) by left.
  rewrite IH by (intros; apply H; by right). done.
Qed.

(** ** Hashing and equality *)

Lemma py_hash_key_of v : hashable v = true -> py_hash v = Ok (key_of v).
Proof. unfold hashable, key_of. by destruct (py_hash v). Qed.

Lemma py_eq_key a b :
  hashable a = true -> hashable b = true ->
  py_eq a b = bool_decide (key_of a = key_of b).
Proof.
  destruct a as [|x|m|s| |], b as [|y|n|t| |]; try discriminate; intros _ _;
    unfold key_of; simpl; try done.
  - destruct x, y; done.
  - destruct (Z.eqb_spec (Z.b2z x) n) as [->|Hne].
    + by rewrite bool_decide_eq_true_2.
    + rewrite bool_decide_eq_false_2; [done|]. by intros [=].
  - destruct (Z.eqb_spec m (Z.b2z y)) as [->|Hne].
    + by rewrite bool_decide_eq_true_2.
    + rewrite bool_decide_eq_false_2; [done|]. by intros [=].
  - destruct (Z.eqb_spec m n) as [->|Hne].
    + by rewrite bool_decide_eq_true_2.
    + rewrite bool_decide_eq_false_2; [done|]. by intros [=].
  - destruct (decide (s = t)) as [->|Hne].
    + by rewrite !bool_decide_eq_true_2.
    + rewrite !bool_decide_eq_false_2; [done| |done]. by intros [=].
Qed.

(** ** Sets and Counters of ids *)

Lemma py_set_loop vs (s : gset key) :
  for_each (fun s v => k ← py_hash v; Ok (s ∪ {[k]})) vs s =
  if forallb hashable vs then Ok (s ∪ list_to_set (map key_of vs))
  else Raise TypeError.
Proof.
  revert s; induction vs as [|v vs IH]; intros s; simpl.
  - f_equal. set_solver.
  - unfold hashable at 1, key_of at 1.
    destruct v; simpl; try done; rewrite IH; destruct (forallb hashable vs);
      try done; f_equal; set_solver.
Qed.

Lemma py_set_spec vs :
  py_set vs = if forallb hashable vs then Ok (list_to_set (map key_of vs))
              else Raise TypeError.
Proof.
  unfold py_set. rewrite py_set_loop. destruct (forallb hashable vs); [|done].
  f_equal. set_solver.
Qed.

Lemma elem_of_key_set v vs :
  hashable v = true -> forallb hashable vs = true ->
  bool_decide (key_of v ∈ (list_to_set (map key_of vs) : gset key))
  = existsb (fun w => py_eq w v) vs.
Proof.
  intros Hv. induction vs as [|w vs IH]; simpl; intros Hvs.
  - apply bool_decide_eq_false_2. set_solver.
  - apply andb_prop in Hvs as [Hw Hvs]. rewrite <- IH by done.
    rewrite py_eq_key by done.
    destruct (decide (key_of w = key_of v)) as [Heq|Hne].
    + rewrite (bool_decide_eq_true_2 (key_of w = key_of v)) by done. simpl.
      apply bool_decide_eq_true_2. set_solver.
    + rewrite (bool_decide_eq_false_2 (key_of w = key_of v)) by done. simpl.
      apply bool_decide_ext. set_solver.
Qed.

Lemma key_count_multiplicity v vs :
  hashable v = true -> forallb hashable vs = true ->
  length (filter (fun w => py_eq w v) vs) = key_count (key_of v) vs.
Proof.
  intros Hv. unfold key_count. induction vs as [|w vs IH]; simpl; intros Hvs.
  - done.
  - apply andb_prop in Hvs as [Hw Hvs]. rewrite !filter_cons.
    rewrite py_eq_key by done.
    destruct (decide (key_of w = key_of v)) as [Heq|Hne].
    + rewrite (bool_decide_eq_true_2 (key_of w = key_of v)) by done. simpl.
      by rewrite IH.
    + rewrite (bool_decide_eq_false_2 (key_of w = key_of v)) by done. simpl.
      by rewrite IH.
Qed.

Lemma py_counter_loop vs (c : gmap key nat) :
  forallb hashable vs = true ->
  exists c',
    for_each (fun c v => k ← py_hash v;
                         Ok (<[k := S (default 0%nat (c !! k))]> c)) vs c
    = Ok c'
    /\ forall k, default 0%nat (c' !! k)
                 = (default 0%nat (c !! k) + key_count k vs)%nat.
Proof.
  revert c; induction vs as [|v vs IH]; intros c Hvs; simpl.
  - exists c. split; [done|]. intros k. unfold key_count. simpl. lia.
  - simpl in Hvs. apply andb_prop in Hvs as [Hv Hvs].
    rewrite (py_hash_key_of v Hv). simpl.
    destruct (IH (<[key_of v := S (default 0%nat (c !! key_of v))]> c) Hvs)
      as (c' & Hrun & Hc').
    exists c'. split; [done|]. intros k. rewrite Hc'.
    unfold key_count. rewrite filter_cons.
    destruct (decide (key_of v = k)) as [<-|Hne].
    + rewrite lookup_insert_eq. simpl. lia.
    + rewrite lookup_insert_ne by done. lia.
Qed.

Lemma counter_get_spec (c : gmap key nat) v :
  hashable v = true -> counter_get c v = Ok (default 0%nat (c !! key_of v)).
Proof. intros Hv. unfold counter_get. by rewrite (py_hash_key_of v Hv). Qed.

(** ** The loops of [diff_entries] *)

Lemma filter_cons_bool {A} (p : A -> bool) x l :
  filter (fun x => p x) (x :: l)
  = if p x then x :: filter (fun x => p x) l else filter (fun x => p x) l.
Proof. rewrite filter_cons. by destruct (p x). Qed.

Lemma keyed_cons k x es :
  keyed k (x :: es)
  = if has_id x && bool_decide (key_of (entry_id x) = k) then x :: keyed k es
    else keyed k es.
Proof.
  apply (filter_cons_bool
           (fun o => has_id o && bool_decide (key_of (entry_id o) = k))).
Qed.

Lemma hashable_ids_elem es e :
  hashable_ids es = true -> e ∈ es -> has_id e = true ->
  hashable (entry_id e) = true.
Proof.
  unfold hashable_ids, ids_of. induction es as [|x es IH]; intros Hall Hin Hid.
  - by apply elem_of_nil in Hin.
  - rewrite filter_cons in Hall. apply elem_of_cons in Hin as [->|Hin].
    + unfold has_id in Hid. rewrite decide_True in Hall by by rewrite Hid.
      simpl in Hall. by apply andb_prop in Hall as [? _].
    + apply IH; [|done..]. destruct (decide _); [|done].
      simpl in Hall. by apply andb_prop in Hall as [_ ?].
Qed.

Lemma key_count_ids k es : key_count k (ids_of es) = length (keyed k es).
Proof.
  unfold key_count, ids_of, keyed, has_id.
  induction es as [|x es IH]; [done|].
  rewrite !filter_cons. destruct (is_none (entry_id x)); simpl; [done|].
  rewrite filter_cons.
  destruct (decide (key_of (entry_id x) = k)) as [Heq|Hne].
  - rewrite (bool_decide_eq_true_2 _ Heq). simpl. by rewrite IH.
  - rewrite (bool_decide_eq_false_2 _ Hne). simpl. by rewrite IH.
Qed.

Lemma with_id_keyed v es :
  hashable v = true -> hashable_ids es = true ->
  with_id v es = keyed (key_of v) es.
Proof.
  intros Hv Hes. unfold with_id, keyed. apply filter_ext_in. intros o Ho.
  destruct (has_id o) eqn:Hid; [|done]. simpl.
  apply py_eq_key; [|done]. by apply (hashable_ids_elem es).
Qed.

Lemma multiplicity_keyed v es :
  hashable v = true -> hashable_ids es = true ->
  multiplicity v es = length (keyed (key_of v) es).
Proof.
  intros Hv Hes. unfold multiplicity.
  rewrite key_count_multiplicity by done. apply key_count_ids.
Qed.

Lemma absent_loop_spec other es :
  hashable_ids other = true -> hashable_ids es = true ->
  absent_loop (list_to_set (map key_of (ids_of other))) es
  = Ok (filter (fun e => has_id e && negb (id_in (entry_id e) other)) es).
Proof.
  intros Hother Hes. unfold absent_loop.
  rewrite (for_each_filter _
             (fun e => has_id e && negb (id_in (entry_id e) other))); [done|].
  intros acc x Hx. fold (entry_id x). unfold has_id.
  destruct (is_none (entry_id x)) eqn:Hnone; [done|]. simpl.
  assert (hashable (entry_id x) = true) as Hh.
  { apply (hashable_ids_elem es); [done..|]. unfold has_id. by rewrite Hnone. }
  unfold py_in. rewrite (py_hash_key_of _ Hh). simpl.
  rewrite elem_of_key_set by done. fold (id_in (entry_id x) other).
  by destruct (id_in (entry_id x) other).
Qed.

Lemma unique_loop_spec (c : gmap key nat) es (m0 : gmap key entry) :
  hashable_ids es = true ->
  exists m,
    for_each (fun (m : gmap key entry) entry =>
        let entry_id := py_get (lit "id") entry in
        if is_none entry_id then Ok m
        else
          n ← counter_get c entry_id;
          if (n =? 1)%nat then k ← py_hash entry_id; Ok (<[k := entry]> m)
          else Ok m) es m0 = Ok m
    /\ forall k, default 0%nat (c !! k) = 1%nat ->
         m !! k = match last (keyed k es) with
                  | Some o => Some o
                  | None => m0 !! k
                  end.
Proof.
  revert m0; induction es as [|x es IH]; intros m0 Hes.
  - exists m0. by split.
  - assert (hashable_ids es = true) as Hes'.
    { unfold hashable_ids, ids_of in *. rewrite filter_cons in Hes.
      destruct (decide _); [|done]. simpl in Hes.
      by apply andb_prop in Hes as [_ ?]. }
    simpl. fold (entry_id x).
    destruct (is_none (entry_id x)) eqn:Hnone.
    { destruct (IH m0 Hes') as (m & Hrun & Hm). exists m. split; [done|].
      intros k Hk. rewrite (Hm k Hk), keyed_cons. unfold has_id.
      by rewrite Hnone. }
    assert (has_id x = true) as Hid by (unfold has_id; by rewrite Hnone).
    assert (hashable (entry_id x) = true) as Hh.
    { apply (hashable_ids_elem (x :: es)); [done|left|done]. }
    rewrite counter_get_spec by done. simpl.
    destruct (Nat.eqb_spec (default 0%nat (c !! key_of (entry_id x))) 1)
      as [Hone|Hnot].
    + rewrite (py_hash_key_of _ Hh). simpl.
      destruct (IH (<[key_of (entry_id x) := x]> m0) Hes') as (m & Hrun & Hm).
      exists m. split; [done|]. intros k Hk. rewrite (Hm k Hk), keyed_cons, Hid.
      simpl.
      destruct (decide (key_of (entry_id x) = k)) as [Heq|Hne].
      * rewrite (bool_decide_eq_true_2 _ Heq). rewrite last_cons.
        destruct (last (keyed k es)); [done|]. subst k.
        by rewrite lookup_insert_eq.
      * rewrite (bool_decide_eq_false_2 _ Hne).
        by rewrite lookup_insert_ne.
    + destruct (IH m0 Hes') as (m & Hrun & Hm). exists m. split; [done|].
      intros k Hk. rewrite (Hm k Hk), keyed_cons, Hid. simpl.
      rewrite bool_decide_eq_false_2; [done|]. by intros <-.
Qed.

Lemma modified_loop_spec (oc nc : gmap key nat) (m : gmap key entry) old new :
  hashable_ids old = true -> hashable_ids new = true ->
  (forall k, default 0%nat (oc !! k) = key_count k (ids_of old)) ->
  (forall k, default 0%nat (nc !! k) = key_count k (ids_of new)) ->
  (forall k, default 0%nat (oc !! k) = 1%nat -> m !! k = last (keyed k old)) ->
  modified_loop oc nc m new = Ok (modified_of old new).
Proof.
  intros Hold Hnew Hoc Hnc Hm. unfold modified_loop, modified_of.
  rewrite (for_each_filter _ (is_modified old new)); [done|].
  intros acc x Hx. fold (entry_id x). unfold is_modified, has_id.
  destruct (is_none (entry_id x)) eqn:Hnone; [done|]. simpl.
  assert (hashable (entry_id x) = true) as Hh.
  { apply (hashable_ids_elem new); [done..|]. unfold has_id. by rewrite Hnone. }
  rewrite !counter_get_spec by done. simpl.
  rewrite !multiplicity_keyed, with_id_keyed by done.
  rewrite <- !key_count_ids, <- Hoc, <- Hnc.
  destruct (Nat.eqb_spec (default 0%nat (oc !! key_of (entry_id x))) 1)
    as [Hone|Hnot]; [|done]. simpl.
  destruct (default 0%nat (nc !! key_of (entry_id x)) =? 1)%nat; [|done]. simpl.
  rewrite (py_hash_key_of _ Hh). simpl. rewrite (Hm _ Hone).
  rewrite Hoc, key_count_ids in Hone.
  destruct (keyed (key_of (entry_id x)) old) as [|o [|o' l]]; try done.
  simpl. by destruct (entry_ne o x).
Qed.

Lemma result_bind_ok {A B} (a : A) (k : A -> result B) : (Ok a ≫= k) = k a.
Proof. reflexivity. Qed.

Lemma py_counter_spec vs :
  forallb hashable vs = true ->
  exists c, py_counter vs = Ok c
            /\ forall k, default 0%nat (c !! k) = key_count k vs.
Proof.
  intros Hvs. destruct (py_counter_loop vs ∅ Hvs) as (c & Hrun & Hc).
  exists c. split; [done|]. intros k. by rewrite Hc, lookup_empty.
Qed.

Lemma unique_loop_last (c : gmap key nat) es :
  hashable_ids es = true ->
  exists m, unique_loop c es = Ok m
            /\ forall k, default 0%nat (c !! k) = 1%nat ->
                         m !! k = last (keyed k es).
Proof.
  intros Hes. destruct (unique_loop_spec c es ∅ Hes) as (m & Hrun & Hm).
  exists m. split; [done|]. intros k Hk. rewrite (Hm k Hk), lookup_empty.
  by destruct (last (keyed k es)).
Qed.

(** [diff_entries] raises exactly when some id is unhashable, and otherwise
    returns the three lists of the specification. *)
Lemma diff_entries_spec old new :
  diff_entries old new =
  if hashable_ids old && hashable_ids new
  then Ok (added_of old new, modified_of old new, removed_of old new)
  else Raise TypeError.
Proof.
  unfold diff_entries. rewrite !py_set_spec.
  fold (hashable_ids old) (hashable_ids new).
  destruct (hashable_ids old) eqn:Hold; [|done].
  destruct (hashable_ids new) eqn:Hnew; [|done].
  rewrite !result_bind_ok, (absent_loop_spec old new), result_bind_ok by done.
  destruct (py_counter_spec (ids_of old) Hold) as (oc & -> & Hoc).
  destruct (py_counter_spec (ids_of new) Hnew) as (nc & -> & Hnc).
  rewrite !result_bind_ok.
  destruct (unique_loop_last oc old Hold) as (m & -> & Hm).
  rewrite result_bind_ok.
  rewrite (modified_loop_spec oc nc m old new) by done.
  by rewrite result_bind_ok, absent_loop_spec.
Qed.

(** ** Reflexivity of [==] *)

Lemma value_ind_nested (P : value -> Prop) :
  P VNone -> (forall b, P (VBool b)) -> (forall n, P (VInt n)) ->
  (forall s, P (VStr s)) ->
  (forall xs, Forall P xs -> P (VList xs)) ->
  (forall kvs, Forall (fun kv => P (snd kv)) kvs -> P (VDict kvs)) ->
  forall v, P v.
Proof.
  intros HN HB HI HS HL HD. fix IH 1. intros [|b|n|s|xs|kvs].
  - exact HN.
  - apply HB.
  - apply HI.
  - apply HS.
  - apply HL. induction xs as [|x xs IHxs]; constructor; [apply IH|exact IHxs].
  - apply HD. induction kvs as [|[k x] kvs IHkvs]; constructor;
      [apply IH|exact IHkvs].
Qed.

Lemma py_eq_dict_unfold d e :
  py_eq (VDict d) (VDict e)
  = (length d =? length e)%nat
    && forallb (fun kv => match dict_lookup (fst kv) e with
                          | Some w => py_eq (snd kv) w
                          | None => false
                          end) d.
Proof.
  simpl. f_equal. induction d as [|[k v] d IH]; simpl; [done|]. by rewrite IH.
Qed.

Lemma py_eq_list_refl xs :
  Forall (fun x => py_eq x x = true) xs -> py_eq (VList xs) (VList xs) = true.
Proof.
  induction 1 as [|x xs Hx _ IH]; [done|].
  simpl in *. by rewrite Hx, IH.
Qed.

Lemma wf_value_list xs :
  wf_value (VList xs) = true -> Forall (fun x => wf_value x = true) xs.
Proof.
  induction xs as [|x xs IH]; simpl; intros H; constructor.
  - by apply andb_prop in H as [? _].
  - apply IH. by apply andb_prop in H as [_ ?].
Qed.

Lemma wf_value_dict kvs :
  wf_value (VDict kvs) = true ->
  NoDup (map fst kvs) /\ Forall (fun kv => wf_value (snd kv) = true) kvs.
Proof.
  simpl. intros H. apply andb_prop in H as [Hnd H]. split.
  - by apply bool_decide_eq_true_1 in Hnd.
  - clear Hnd. induction kvs as [|[k x] kvs IH]; constructor; simpl.
    + by apply andb_prop in H as [? _].
    + apply IH. by apply andb_prop in H as [_ ?].
Qed.

Lemma dict_lookup_nodup k v kvs :
  NoDup (map fst kvs) -> (k, v) ∈ kvs -> dict_lookup k kvs = Some v.
Proof.
  induction kvs as [|[k' v'] kvs IH]; simpl; intros Hnd Hin.
  - by apply elem_of_nil in Hin.
  - apply NoDup_cons in Hnd as [Hk' Hnd].
    apply elem_of_cons in Hin as [[= -> ->]|Hin].
    + by rewrite decide_True.
    + rewrite decide_False; [by apply IH|]. intros <-. apply Hk'.
      apply list_elem_of_In, in_map_iff. exists (k, v). split; [done|].
      by apply list_elem_of_In.
Qed.

(** A well-formed value equals itself. *)
Lemma py_eq_refl v : wf_value v = true -> py_eq v v = true.
Proof.
  induction v as [|b|n|s|xs IH|kvs IH] using value_ind_nested; intros Hwf.
  - done.
  - simpl. by apply bool_decide_eq_true_2.
  - simpl. by apply Z.eqb_refl.
  - simpl. by apply bool_decide_eq_true_2.
  - apply py_eq_list_refl. apply wf_value_list in Hwf.
    rewrite Forall_forall in *. intros x Hx. apply IH; [done|]. by apply Hwf.
  - apply wf_value_dict in Hwf as [Hnd Hwf]. rewrite py_eq_dict_unfold.
    rewrite Nat.eqb_refl. simpl. apply forallb_forall. intros [k x] Hin.
    apply list_elem_of_In in Hin. simpl.
    rewrite (dict_lookup_nodup k x kvs Hnd Hin).
    rewrite Forall_forall in IH, Hwf. apply (IH (k, x) Hin), (Hwf (k, x) Hin).
Qed.

(** ** The delta engine *)

Lemma diff_entries_ok_inv old new added modified removed :
  diff_entries old new = Ok (added, modified, removed) ->
  hashable_ids old = true /\ hashable_ids new = true
  /\ added = added_of old new /\ modified = modified_of old new
  /\ removed = removed_of old new.
Proof.
  rewrite diff_entries_spec.
  destruct (hashable_ids old), (hashable_ids new); try discriminate.
  intros [= <- <- <-]. done.
Qed.

(** On hashable ids [diff_entries] returns. *)
Lemma diff_entries_returns old new :
  hashable_ids old = true -> hashable_ids new = true ->
  diff_entries old new
  = Ok (added_of old new, modified_of old new, removed_of old new).
Proof. intros Hold Hnew. by rewrite diff_entries_spec, Hold, Hnew. Qed.

(** An unhashable id makes [diff_entries] raise [TypeError]. *)
Lemma diff_entries_raises old new :
  hashable_ids old && hashable_ids new = false ->
  diff_entries old new = Raise TypeError.
Proof. intros H. by rewrite diff_entries_spec, H. Qed.

Lemma id_in_key v w es :
  hashable v = true -> hashable w = true -> hashable_ids es = true ->
  py_eq v w = true -> id_in v es = id_in w es.
Proof.
  intros Hv Hw Hes Heq. unfold id_in.
  rewrite <- !elem_of_key_set by done.
  rewrite py_eq_key in Heq by done. apply bool_decide_eq_true_1 in Heq.
  by rewrite Heq.
Qed.

Lemma existsb_filter_length {A} (p : A -> bool) l :
  length (filter (fun x => p x) l) <> 0%nat -> existsb p l = true.
Proof.
  induction l as [|x l IH]; [done|]. rewrite filter_cons_bool. simpl.
  destruct (p x); [done|]. apply IH.
Qed.

Lemma multiplicity_id_in v es :
  multiplicity v es <> 0%nat -> id_in v es = true.
Proof. apply (existsb_filter_length (fun w => py_eq w v)). Qed.

Lemma id_in_self e es :
  hashable_ids es = true -> e ∈ es -> has_id e = true ->
  id_in (entry_id e) es = true.
Proof.
  intros Hes Hin Hid. apply multiplicity_id_in.
  assert (hashable (entry_id e) = true) as Hh
    by by apply (hashable_ids_elem es).
  rewrite multiplicity_keyed by done.
  assert (e ∈ keyed (key_of (entry_id e)) es) as Hk.
  { apply list_elem_of_filter. split; [|done].
    rewrite Hid. simpl. by apply bool_decide_pack. }
  destruct (keyed (key_of (entry_id e)) es); [|done].
  by apply elem_of_nil in Hk.
Qed.

Lemma elem_of_added_of old new e :
  e ∈ added_of old new <->
  e ∈ new /\ has_id e = true /\ id_in (entry_id e) old = false.
Proof.
  unfold added_of. rewrite list_elem_of_filter, andb_True, !Is_true_true.
  rewrite negb_true_iff. tauto.
Qed.

Lemma elem_of_removed_of old new e :
  e ∈ removed_of old new <->
  e ∈ old /\ has_id e = true /\ id_in (entry_id e) new = false.
Proof.
  unfold removed_of. rewrite list_elem_of_filter, andb_True, !Is_true_true.
  rewrite negb_true_iff. tauto.
Qed.

(** What the test [is_modified] says. *)
Lemma is_modified_iff old new e :
  is_modified old new e = true <->
  has_id e = true
  /\ multiplicity (entry_id e) old = 1%nat
  /\ multiplicity (entry_id e) new = 1%nat
  /\ exists o, head (with_id (entry_id e) old) = Some o
               /\ py_eq (VDict o) (VDict e) = false.
Proof.
  unfold is_modified, entry_ne. rewrite !andb_true_iff, !Nat.eqb_eq.
  destruct (head (with_id (entry_id e) old)) as [o|].
  - rewrite negb_true_iff. split.
    + intros [[[? ?] ?] ?]. eauto 10.
    + intros (? & ? & ? & o' & [= <-] & ?). done.
  - split; [intros [_ ?]; done|]. intros (_ & _ & _ & o & ? & _). done.
Qed.

Lemma elem_of_modified_of old new e :
  e ∈ modified_of old new <-> e ∈ new /\ is_modified old new e = true.
Proof.
  unfold modified_of. rewrite list_elem_of_filter, Is_true_true. tauto.
Qed.

(** C1.  The three lists [diff_entries] returns are disjoint by id: an
    entry of one list and an entry of another never carry equal ids. *)
Theorem diff_entries_id_disjoint old new added modified removed :
  diff_entries old new = Ok (added, modified, removed) ->
  (forall a m, a ∈ added -> m ∈ modified -> ids_differ a m)
  /\ (forall a r, a ∈ added -> r ∈ removed -> ids_differ a r)
  /\ (forall m r, m ∈ modified -> r ∈ removed -> ids_differ m r).
Proof.
  intros (Hold & Hnew & -> & -> & ->)%diff_entries_ok_inv.
  assert (forall x y es,
             x ∈ new -> has_id x = true -> y ∈ es -> has_id y = true ->
             hashable_ids es = true ->
             forall other, hashable_ids other = true ->
             id_in (entry_id x) other <> id_in (entry_id y) other ->
             ids_differ x y) as Hsep.
  { intros x y es Hx Hxid Hy Hyid Hes other Hother Hne. unfold ids_differ.
    destruct (py_eq (entry_id x) (entry_id y)) eqn:Heq; [|done].
    destruct Hne. apply id_in_key; try done.
    - by apply (hashable_ids_elem new).
    - by apply (hashable_ids_elem es). }
  split; [|split].
  - intros a m (Ha & Haid & Hain)%elem_of_added_of
      (Hm & Hmod)%elem_of_modified_of.
    apply is_modified_iff in Hmod as (Hmid & Hmold & _).
    apply (Hsep a m new Ha Haid Hm Hmid Hnew old Hold).
    rewrite Hain, multiplicity_id_in; [done|]. by rewrite Hmold.
  - intros a r (Ha & Haid & Hain)%elem_of_added_of
      (Hr & Hrid & Hrin)%elem_of_removed_of.
    apply (Hsep a r old Ha Haid Hr Hrid Hold new Hnew).
    by rewrite Hrin, id_in_self.
  - intros m r (Hm & Hmod)%elem_of_modified_of
      (Hr & Hrid & Hrin)%elem_of_removed_of.
    apply is_modified_iff in Hmod as (Hmid & _).
    apply (Hsep m r old Hm Hmid Hr Hrid Hold new Hnew).
    by rewrite Hrin, id_in_self.
Qed.

Lemma ids_of_cons x es :
  ids_of (x :: es) = if has_id x then entry_id x :: ids_of es else ids_of es.
Proof.
  unfold ids_of.
  rewrite (filter_cons_bool (fun e => negb (is_none (entry_id e)))).
  fold (has_id x). by destruct (has_id x).
Qed.

Lemma multiplicity_with_id v es : multiplicity v es = length (with_id v es).
Proof.
  unfold multiplicity, with_id. induction es as [|x es IH]; [done|].
  rewrite ids_of_cons,
    (filter_cons_bool (fun o => has_id o && py_eq (entry_id o) v)).
  destruct (has_id x); simpl; [|done].
  rewrite (filter_cons_bool (fun w => py_eq w v)).
  destruct (py_eq (entry_id x) v); simpl; by rewrite IH.
Qed.

Lemma multiplicity_py_eq v w es :
  hashable v = true -> hashable w = true -> hashable_ids es = true ->
  py_eq v w = true -> multiplicity v es = multiplicity w es.
Proof.
  intros Hv Hw Hes Heq. rewrite !multiplicity_keyed by done.
  rewrite py_eq_key in Heq by done. apply bool_decide_eq_true_1 in Heq.
  by rewrite Heq.
Qed.

Lemma filter_nil_bool {A} (p : A -> bool) l :
  (forall x, x ∈ l -> p x = false) -> filter (fun x => p x) l = [].
Proof.
  induction l as [|x l IH]; intros H; [done|].
  rewrite filter_cons_bool, (H x) by left. apply IH. intros; apply H; by right.
Qed.

(** C2.  The [modified] list is the sublist of [new_entries], in order, of
    the entries that carry an id, whose id occurs exactly once in each of
    the two lists, and whose one old entry under that id is not [==] to
    them.  An id occurring more or less than once in either list is the id
    of no modified entry. *)
Theorem diff_entries_modified old new added modified removed :
  diff_entries old new = Ok (added, modified, removed) ->
  modified = filter (fun e => is_modified old new e) new
  /\ (forall e,
        is_modified old new e = true <->
        has_id e = true
        /\ multiplicity (entry_id e) old = 1%nat
        /\ multiplicity (entry_id e) new = 1%nat
        /\ exists o, with_id (entry_id e) old = [o]
                     /\ py_eq (VDict o) (VDict e) = false)
  /\ (forall v, hashable v = true ->
        multiplicity v old <> 1%nat \/ multiplicity v new <> 1%nat ->
        forall m, m ∈ modified -> py_eq (entry_id m) v = false).
Proof.
  intros (Hold & Hnew & _ & -> & _)%diff_entries_ok_inv.
  split; [done|]. split.
  - intros e. rewrite is_modified_iff.
    split; intros (Hid & Hone & Hone' & o & Ho & Hne);
      (do 3 (split; [done|])); exists o; (split; [|done]).
    + rewrite multiplicity_with_id in Hone.
      destruct (with_id (entry_id e) old) as [|o' [|o'' l]]; try done.
      by injection Ho as ->.
    + by rewrite Ho.
  - intros v Hv Hmult m (Hm & Hmod)%elem_of_modified_of.
    apply is_modified_iff in Hmod as (Hmid & Hmold & Hmnew & _).
    destruct (py_eq (entry_id m) v) eqn:Heq; [|done].
    assert (hashable (entry_id m) = true) as Hh
      by by apply (hashable_ids_elem new).
    rewrite <- (multiplicity_py_eq (entry_id m) v old) in Hmult by done.
    rewrite <- (multiplicity_py_eq (entry_id m) v new) in Hmult by done.
    lia.
Qed.


(** C4, as amended.  When every id of the list is hashable, diffing the
    list against itself returns three empty lists. *)
Theorem diff_entries_self l :
  hashable_ids l = true -> forallb wf_entry l = true ->
  diff_entries l l = Ok ([], [], []).
Proof.
  intros Hl Hwf. rewrite diff_entries_returns by done.
  assert (added_of l l = []) as ->.
  { apply (filter_nil_bool (fun e => has_id e && negb (id_in (entry_id e) l))).
    intros x Hx. destruct (has_id x) eqn:Hid; [|done].
    by rewrite id_in_self. }
  assert (removed_of l l = []) as ->.
  { apply (filter_nil_bool (fun e => has_id e && negb (id_in (entry_id e) l))).
    intros x Hx. destruct (has_id x) eqn:Hid; [|done].
    by rewrite id_in_self. }
  assert (modified_of l l = []) as ->; [|done].
  apply filter_nil_bool. intros x Hx.
  destruct (is_modified l l x) eqn:Hmod; [|done].
  apply is_modified_iff in Hmod as (Hid & Hone & _ & o & Ho & Hne).
  assert (hashable (entry_id x) = true) as Hh
    by by apply (hashable_ids_elem l).
  assert (x ∈ with_id (entry_id x) l) as Hin.
  { apply list_elem_of_filter. split; [|done]. rewrite Hid. simpl.
    rewrite py_eq_key by done. by apply bool_decide_pack. }
  rewrite multiplicity_with_id in Hone.
  destruct (with_id (entry_id x) l) as [|o' [|o'' l']]; try done.
  apply list_elem_of_singleton in Hin as <-. injection Ho as <-.
  rewrite py_eq_refl in Hne; [done|].
  rewrite forallb_forall in Hwf. apply Hwf. by apply list_elem_of_In.
Qed.

Section FormatterProps.

Context (py_repr : value -> pystr).





End FormatterProps.


Section SummaryProps.

Context (py_repr : value -> pystr).



End SummaryProps.

Section DetailProps.

Context (py_repr : value -> pystr).




End DetailProps.

Section GroupingProps.

Context (py_repr : value -> pystr).






Lemma append_change_line_app acc change :
  append_change_line py_repr acc change = acc ++ change_lines py_repr change.
Proof.
  unfold change_lines. destruct change; simpl; rewrite ?app_nil_r; try done.
  destruct (bool_decide _); [by rewrite app_nil_r|done].
Qed.

Lemma append_change_lines_app acc changes :
  foldl (append_change_line py_repr) acc changes
  = acc ++ flat_map (change_lines py_repr) changes.
Proof.
  revert acc; induction changes as [|c cs IH]; intros acc; simpl.
  - by rewrite app_nil_r.
  - by rewrite IH, append_change_line_app, app_assoc.
Qed.

Lemma append_entry_lines_app acc e :
  append_entry_lines py_repr acc e = acc ++ detail_lines py_repr e.
Proof.
  unfold append_entry_lines, detail_lines.
  destruct (py_get (lit "changes") e); rewrite ?app_nil_r; try done.
  apply append_change_lines_app.
Qed.

Lemma append_entries_lines_app acc es :
  foldl (append_entry_lines py_repr) acc es
  = acc ++ flat_map (detail_lines py_repr) es.
Proof.
  revert acc; induction es as [|e es IH]; intros acc; simpl.
  - by rewrite app_nil_r.
  - by rewrite IH, append_entry_lines_app, app_assoc.
Qed.

(** The second loop joins the groups with one blank line between them. *)
Lemma append_author_lines_loop acc first
    (by_author : list (pystr * list entry)) :
  fst (foldl (append_author_lines py_repr) (acc, first) by_author)
  = acc ++
    match by_author with
    | [] => []
    | _ =>
        (if first then [] else [[10%N]])
        ++ join [[10%N]]
             (map (fun item =>
                     author_header (fst item)
                     :: flat_map (detail_lines py_repr) (snd item))
                by_author)
    end.
Proof.
  revert acc first.
  induction by_author as [|[author aes] od IH]; intros acc first.
  - simpl. by rewrite app_nil_r.
  - cbn [foldl append_author_lines]. rewrite IH.
    rewrite append_entries_lines_app. fold (author_header author).
    cbn [map fst snd].
    destruct od as [|item od].
    + simpl. destruct first; simpl; rewrite ?app_nil_r, <- ?app_assoc; done.
    + cbn [join map]. destruct first; simpl;
        rewrite <- ?app_assoc; simpl; done.
Qed.

End GroupingProps.




Section DetailTheorem.

Context (py_repr : value -> pystr).




End DetailTheorem.

(** ** Truncation *)

Lemma length_lstrip s : (length (lstrip s) <= length s)%nat.
Proof. induction s as [|c s IH]; simpl; [done|]. destruct (is_space c); simpl; lia. Qed.

Lemma length_rstrip s : (length (rstrip s) <= length s)%nat.
Proof.
  unfold rstrip. rewrite length_rev.
  etrans; [apply length_lstrip|]. by rewrite length_rev.
Qed.

Lemma py_len_app s t : py_len (s ++ t) = py_len s + py_len t.
Proof. unfold py_len. rewrite length_app. lia. Qed.

Lemma py_len_nonneg s : 0 <= py_len s.
Proof. unfold py_len. lia. Qed.

Lemma py_len_truncated s : py_len (truncated s) <= DISCORD_SPLIT_LIMIT - 94.
Proof.
  unfold truncated, slice_to. rewrite py_len_app.
  change (py_len (lit " [...]")) with 6.
  pose proof (length_rstrip (take (Z.to_nat (DISCORD_SPLIT_LIMIT - 100)) s)).
  rewrite length_take in H. unfold py_len, DISCORD_SPLIT_LIMIT in *. lia.
Qed.

Lemma py_len_fit_line line : py_len (fit_line line) <= DISCORD_SPLIT_LIMIT.
Proof.
  unfold fit_line. destruct (Z.ltb_spec DISCORD_SPLIT_LIMIT (py_len line)).
  - pose proof (py_len_truncated line). lia.
  - done.
Qed.

(** ** Chunking *)

Lemma chunk_len_app a b : chunk_len (a ++ b) = chunk_len a + chunk_len b.
Proof. unfold chunk_len. by rewrite concat_app, py_len_app. Qed.

Lemma chunk_len_singleton l : chunk_len [l] = py_len l.
Proof. unfold chunk_len. simpl. by rewrite app_nil_r. Qed.

Lemma chunk_loop_concat lines cl clen :
  concat (chunk_loop lines cl clen) = cl ++ map fit_line lines.
Proof.
  revert cl clen; induction lines as [|l lines IH]; intros cl clen; simpl.
  - destruct cl; simpl; by rewrite ?app_nil_r.
  - destruct (DISCORD_SPLIT_LIMIT <? clen + py_len (fit_line l)).
    + rewrite concat_app, IH. destruct cl; simpl; by rewrite ?app_nil_r.
    + by rewrite IH, <- app_assoc.
Qed.

Lemma chunk_loop_bound lines cl clen :
  chunk_len cl = clen -> clen <= DISCORD_SPLIT_LIMIT ->
  Forall (fun c => chunk_len c <= DISCORD_SPLIT_LIMIT)
    (chunk_loop lines cl clen).
Proof.
  revert cl clen; induction lines as [|l lines IH]; intros cl clen Hlen Hle;
    simpl.
  - destruct cl; simpl; [done|]. constructor; [lia|done].
  - pose proof (py_len_fit_line l).
    destruct (Z.ltb_spec DISCORD_SPLIT_LIMIT (clen + py_len (fit_line l))).
    + apply Forall_app. split.
      * destruct cl; simpl; [done|]. constructor; [lia|done].
      * apply IH; [apply chunk_len_singleton|done].
    + apply IH; [|done]. rewrite chunk_len_app, chunk_len_singleton. lia.
Qed.

Lemma chunk_loop_nonempty lines cl clen :
  Forall (fun c => c <> []) (chunk_loop lines cl clen).
Proof.
  revert cl clen; induction lines as [|l lines IH]; intros cl clen; simpl.
  - destruct cl; simpl; [done|]. by constructor.
  - destruct (DISCORD_SPLIT_LIMIT <? clen + py_len (fit_line l)); [|done].
    apply Forall_app. split; [|done]. destruct cl; simpl; [done|].
    by constructor.
Qed.

Lemma chunk_loop_tight lines cl clen :
  cl <> [] -> chunk_len cl = clen ->
  exists ext cs, chunk_loop lines cl clen = (cl ++ ext) :: cs
                 /\ tight ((cl ++ ext) :: cs).
Proof.
  revert cl clen; induction lines as [|l lines IH]; intros cl clen Hne Hlen.
  - exists [], []. simpl. rewrite app_nil_r. by destruct cl.
  - simpl.
    destruct (Z.ltb_spec DISCORD_SPLIT_LIMIT (clen + py_len (fit_line l))).
    + destruct (IH [fit_line l] (py_len (fit_line l)))
        as (ext & cs & Heq & Htight); [done|apply chunk_len_singleton|].
      exists [], (([fit_line l] ++ ext) :: cs). rewrite Heq, app_nil_r.
      split; [by destruct cl|]. split; [|done]. simpl. lia.
    + destruct (IH (cl ++ [fit_line l]) (clen + py_len (fit_line l)))
        as (ext & cs & Heq & Htight).
      { by destruct cl. }
      { rewrite chunk_len_app, chunk_len_singleton. lia. }
      exists (fit_line l :: ext), cs. rewrite Heq.
      by rewrite <- app_assoc in *.
Qed.

Lemma chunks_of_tight lines : tight (chunks_of lines).
Proof.
  unfold chunks_of. destruct lines as [|l lines]; [done|]. simpl.
  pose proof (py_len_fit_line l).
  destruct (Z.ltb_spec DISCORD_SPLIT_LIMIT (0 + py_len (fit_line l))); [lia|].
  destruct (chunk_loop_tight lines [fit_line l] (0 + py_len (fit_line l)))
    as (ext & cs & -> & Htight); [done| |done].
  rewrite chunk_len_singleton. lia.
Qed.

Lemma tight_lookup cs i c l c' :
  tight cs -> cs !! i = Some c -> cs !! S i = Some (l :: c') ->
  DISCORD_SPLIT_LIMIT < chunk_len c + py_len l.
Proof.
  revert i; induction cs as [|c0 cs IH]; intros i Htight Hi HSi; [done|].
  destruct Htight as [Hhead Htight]. destruct i as [|i].
  - simpl in Hi, HSi. injection Hi as ->.
    destruct cs as [|c1 cs]; [done|]. simpl in HSi. injection HSi as ->. done.
  - by apply (IH i).
Qed.

(** ** The chunking is the shortest one *)

(** A fuller chunk overflows no later, and any chunk needs at most one
    overflow more than a fresh one. *)
Lemma splits_mono_reset ls :
  (forall c c', c <= c' -> (splits c ls <= splits c' ls)%nat)
  /\ (forall x y, 0 <= y -> (splits x ls <= S (splits y ls))%nat).
Proof.
  induction ls as [|l ls [IHmono IHreset]]; [split; simpl; lia|].
  pose proof (py_len_nonneg l) as Hl. split.
  - intros c c' Hle. simpl.
    destruct (Z.ltb_spec DISCORD_SPLIT_LIMIT (c + py_len l)),
      (Z.ltb_spec DISCORD_SPLIT_LIMIT (c' + py_len l)); try lia.
    + apply IHreset. lia.
    + apply IHmono. lia.
  - intros x y Hy. simpl.
    destruct (Z.ltb_spec DISCORD_SPLIT_LIMIT (x + py_len l)),
      (Z.ltb_spec DISCORD_SPLIT_LIMIT (y + py_len l)).
    + lia.
    + apply le_n_S, IHmono. lia.
    + by apply Nat.le_le_succ_r, IHreset.
    + apply IHreset. lia.
Qed.

Lemma splits_covers u ls n :
  covers u ls n -> forall c, c <= u -> (splits c ls <= n)%nat.
Proof.
  induction 1 as [u|u l ls n Hfit _ IH|u ls n _ IH]; intros c Hc.
  - done.
  - simpl. destruct (Z.ltb_spec DISCORD_SPLIT_LIMIT (c + py_len l)); [lia|].
    apply IH. lia.
  - destruct (splits_mono_reset ls) as [_ Hreset].
    etrans; [apply (Hreset c 0); lia|]. apply le_n_S, IH. lia.
Qed.

Lemma chunk_len_nonneg c : 0 <= chunk_len c.
Proof. apply py_len_nonneg. Qed.

Lemma covers_part pre p ls n :
  chunk_len (pre ++ p) <= DISCORD_SPLIT_LIMIT ->
  covers (chunk_len (pre ++ p)) ls n ->
  covers (chunk_len pre) (p ++ ls) n.
Proof.
  revert pre; induction p as [|l p IH]; intros pre Hle Hcov.
  - by rewrite app_nil_r in Hcov.
  - replace (pre ++ l :: p) with ((pre ++ [l]) ++ p) in *
      by by rewrite <- app_assoc.
    simpl. pose proof (chunk_len_nonneg p).
    rewrite chunk_len_app in Hle.
    assert (chunk_len (pre ++ [l]) = chunk_len pre + py_len l) as Hpre
      by by rewrite chunk_len_app, chunk_len_singleton.
    apply covers_add; [lia|]. rewrite <- Hpre. apply IH; [|done].
    rewrite chunk_len_app. lia.
Qed.

(** Any cutting of the lines into chunks within the limit is a cover. *)
Lemma partition_covers p P :
  Forall (fun c => chunk_len c <= DISCORD_SPLIT_LIMIT) (p :: P) ->
  covers 0 (p ++ concat P) (length P).
Proof.
  revert p; induction P as [|q P IH]; intros p Hall;
    apply Forall_cons in Hall as [Hp Hall].
  - apply (covers_part [] p); [done|]. constructor.
  - apply (covers_part [] p); [done|]. simpl. apply covers_new. by apply IH.
Qed.

Lemma chunk_loop_length lines cl clen :
  cl <> [] ->
  length (chunk_loop lines cl clen) = S (splits clen (map fit_line lines)).
Proof.
  revert cl clen; induction lines as [|l lines IH]; intros cl clen Hne; simpl.
  - by destruct cl.
  - destruct (DISCORD_SPLIT_LIMIT <? clen + py_len (fit_line l)).
    + rewrite length_app, IH by done. by destruct cl.
    + apply IH. by destruct cl.
Qed.

Lemma chunks_of_length lines :
  length (chunks_of lines)
  = match lines with
    | [] => 0%nat
    | _ => S (splits 0 (map fit_line lines))
    end.
Proof.
  unfold chunks_of. destruct lines as [|l lines]; [done|]. simpl.
  pose proof (py_len_fit_line l).
  destruct (Z.ltb_spec DISCORD_SPLIT_LIMIT (0 + py_len (fit_line l))); [lia|].
  by apply chunk_loop_length.
Qed.

(** No cutting of the lines within the limit has fewer chunks. *)
Lemma chunks_of_minimal lines P :
  concat P = map fit_line lines ->
  Forall (fun c => chunk_len c <= DISCORD_SPLIT_LIMIT) P ->
  (length (chunks_of lines) <= length P)%nat.
Proof.
  intros Hcat Hall. rewrite chunks_of_length.
  destruct lines as [|l lines]; [lia|]. rewrite <- Hcat.
  destruct P as [|p P]; [done|]. simpl. apply le_n_S.
  apply (splits_covers 0); [|done]. by apply partition_covers.
Qed.

(** ** Runs of the delivery pipeline *)

(** The retry loop sends nothing to itself and posts one content only. *)
Lemma webhook_loop_events url body attempt script :
  sends (fst (webhook_loop url body attempt script)) = []
  /\ Forall (fun c => c = content body)
       (posts (fst (webhook_loop url body attempt script))).
Proof.
  revert attempt; induction script as [|resp script IH]; intros attempt.
  - by split.
  - simpl. destruct (IH (attempt + 1)) as [IHs IHp].
    destruct (webhook_loop url body (attempt + 1) script) as [evs o].
    simpl in IHs, IHp.
    repeat match goal with
           | |- context [if ?b then _ else _] => destruct b
           | |- context [match raise_for_status ?s with _ => _ end] =>
               destruct (raise_for_status s)
           end; simpl; split; try done; by repeat constructor.
Qed.

Lemma send_discord_webhook_events url lines script :
  sends (fst (send_discord_webhook url lines script)) = [lines]
  /\ Forall (fun c => c = concat lines)
       (posts (fst (send_discord_webhook url lines script))).
Proof.
  unfold send_discord_webhook, mbind, io_mbind, io_bind, emit. simpl.
  destruct (webhook_loop_events url (get_discord_body (concat lines)) 0 script)
    as [Hs Hp].
  destruct (webhook_loop url (get_discord_body (concat lines)) 0 script)
    as [evs o].
  simpl in *. by rewrite Hs.
Qed.

Lemma sends_app evs evs' : sends (evs ++ evs') = sends evs ++ sends evs'.
Proof. unfold sends. by rewrite flat_map_app. Qed.

Lemma posts_app evs evs' : posts (evs ++ evs') = posts evs ++ posts evs'.
Proof. unfold posts. by rewrite flat_map_app. Qed.

(** Whatever the webhook answers, the chunks sent are the first chunks of
    the chunking, and all of them when the run returns. *)
Lemma send_loop_sends url delay lines cl clen script :
  (exists later,
      chunk_loop lines cl clen
      = sends (fst (send_loop url delay lines cl clen script)) ++ later)
  /\ (forall rest,
        snd (send_loop url delay lines cl clen script) = Done tt rest ->
        sends (fst (send_loop url delay lines cl clen script))
        = chunk_loop lines cl clen).
Proof.
  revert cl clen script; induction lines as [|l lines IH];
    intros cl clen script.
  - simpl. destruct cl as [|l0 cl]; simpl.
    + split; [by exists []|done].
    + destruct (send_discord_webhook_events url (l0 :: cl) script) as [-> _].
      split; [by exists []|done].
  - simpl. fold (fit_line l).
    destruct (DISCORD_SPLIT_LIMIT <? clen + py_len (fit_line l)); [|apply IH].
    destruct cl as [|l0 cl]; simpl.
    + unfold mbind, io_mbind, io_bind, io_ret. simpl.
      specialize (IH [fit_line l] (py_len (fit_line l)) script).
      destruct (send_loop url delay lines [fit_line l] (py_len (fit_line l))
                  script) as [evs o]. apply IH.
    + unfold mbind, io_mbind, io_bind, emit.
      destruct (send_discord_webhook_events url (l0 :: cl) script) as [Hs _].
      destruct (send_discord_webhook url (l0 :: cl) script) as [evs [[] rest| |]];
        simpl in Hs; simpl.
      * specialize (IH [fit_line l] (py_len (fit_line l)) rest).
        destruct (send_loop url delay lines [fit_line l] (py_len (fit_line l))
                    rest) as [evs' o]. simpl in IH. simpl.
        rewrite !sends_app, Hs. simpl. destruct IH as [[later Hl] Hdone].
        split; [exists later; by rewrite Hl|].
        intros rest' Hr. by rewrite (Hdone rest' Hr).
      * rewrite Hs. split; [by eexists|done].
      * rewrite Hs. split; [by eexists|done].
Qed.

(** Every content posted is the text of a chunk that was sent. *)
Lemma send_loop_posts url delay lines cl clen script :
  Forall (fun c => exists chunk,
              chunk ∈ sends (fst (send_loop url delay lines cl clen script))
              /\ c = concat chunk)
    (posts (fst (send_loop url delay lines cl clen script))).
Proof.
  revert cl clen script; induction lines as [|l lines IH];
    intros cl clen script.
  - simpl. destruct cl as [|l0 cl]; simpl; [done|].
    destruct (send_discord_webhook_events url (l0 :: cl) script) as [-> Hp].
    eapply Forall_impl; [exact Hp|]. intros c ->. exists (l0 :: cl).
    split; [left|done].
  - simpl. fold (fit_line l).
    destruct (DISCORD_SPLIT_LIMIT <? clen + py_len (fit_line l)); [|apply IH].
    destruct cl as [|l0 cl]; simpl.
    + unfold mbind, io_mbind, io_bind, io_ret. simpl.
      specialize (IH [fit_line l] (py_len (fit_line l)) script).
      destruct (send_loop url delay lines [fit_line l] (py_len (fit_line l))
                  script) as [evs o]. apply IH.
    + unfold mbind, io_mbind, io_bind, emit.
      destruct (send_discord_webhook_events url (l0 :: cl) script) as [Hs Hp].
      assert (Forall (fun c => exists chunk, chunk ∈ [l0 :: cl]
                                             /\ c = concat chunk)
                (posts (fst (send_discord_webhook url (l0 :: cl) script))))
        as Hp'.
      { eapply Forall_impl; [exact Hp|]. intros c ->. exists (l0 :: cl).
        split; [left|done]. }
      destruct (send_discord_webhook url (l0 :: cl) script)
        as [evs [[] rest| |]]; simpl in Hs, Hp'; simpl; rewrite ?Hs; try done.
      specialize (IH [fit_line l] (py_len (fit_line l)) rest).
      destruct (send_loop url delay lines [fit_line l] (py_len (fit_line l))
                  rest) as [evs' o]. simpl in IH. simpl.
      rewrite !sends_app, !posts_app, Hs. simpl. rewrite app_nil_r.
      apply Forall_app. split.
      * eapply Forall_impl; [exact Hp'|]. intros c (chunk & Hin & ->).
        exists chunk. split; [|done]. apply list_elem_of_singleton in Hin.
        subst. left.
      * eapply Forall_impl; [exact IH|]. intros c (chunk & Hin & ->).
        exists chunk. split; [by right|done].
Qed.

(** A webhook that accepts every message lets the run return. *)
Lemma send_loop_returns url delay lines cl clen script :
  Forall (fun r => status_code r = 204) script ->
  (length (chunk_loop lines cl clen) <= length script)%nat ->
  exists rest, snd (send_loop url delay lines cl clen script) = Done tt rest.
Proof.
  assert (forall chunk r script, status_code r = 204 ->
            send_discord_webhook url chunk (r :: script)
            = ([EvSend chunk; EvPost url (get_discord_body (concat chunk))],
               Done tt script)) as Hsend.
  { intros chunk r script' Hr.
    unfold send_discord_webhook, mbind, io_mbind, io_bind, emit. simpl.
    by rewrite Hr. }
  revert cl clen script; induction lines as [|l lines IH];
    intros cl clen script Hok Hlen.
  - simpl in *. destruct cl as [|l0 cl]; simpl in *; [by eexists|].
    destruct script as [|r script]; [simpl in Hlen; lia|].
    apply Forall_cons in Hok as [Hr Hok]. rewrite Hsend by done. by eexists.
  - simpl in *. fold (fit_line l).
    destruct (DISCORD_SPLIT_LIMIT <? clen + py_len (fit_line l));
      [|by apply IH].
    destruct cl as [|l0 cl]; simpl in *.
    + unfold mbind, io_mbind, io_bind, io_ret. simpl.
      destruct (IH [fit_line l] (py_len (fit_line l)) script Hok Hlen)
        as [rest Hrest].
      destruct (send_loop url delay lines [fit_line l] (py_len (fit_line l))
                  script) as [evs o]. by exists rest.
    + destruct script as [|r script]; [simpl in Hlen; lia|].
      apply Forall_cons in Hok as [Hr Hok].
      unfold mbind, io_mbind, io_bind, emit. rewrite Hsend by done. simpl.
      destruct (IH [fit_line l] (py_len (fit_line l)) script Hok)
        as [rest Hrest]; [simpl in Hlen; lia|].
      destruct (send_loop url delay lines [fit_line l] (py_len (fit_line l))
                  script) as [evs o]. by exists rest.
Qed.

(** In every run, returning or not, the chunks sent and the contents posted
    are within the limit. *)
Lemma send_message_lines_within_limit url lines delay script :
  Forall (fun c => chunk_len c <= DISCORD_SPLIT_LIMIT)
    (sends (fst (send_message_lines url lines delay script)))
  /\ Forall (fun c => py_len c <= DISCORD_SPLIT_LIMIT)
       (posts (fst (send_message_lines url lines delay script))).
Proof.
  unfold send_message_lines.
  destruct (send_loop_sends url delay lines [] 0 script) as [[later Hl] _].
  pose proof (chunk_loop_bound lines [] 0 eq_refl) as Hbound.
  rewrite Hl in Hbound.
  assert (Forall (fun c => chunk_len c <= DISCORD_SPLIT_LIMIT)
            (sends (fst (send_loop url delay lines [] 0 script)))) as Hsends.
  { apply Forall_app in Hbound as [? _]; [done|].
    unfold DISCORD_SPLIT_LIMIT. lia. }
  split; [done|].
  eapply Forall_impl; [apply send_loop_posts|]. intros c (chunk & Hin & ->).
  rewrite Forall_forall in Hsends. by apply Hsends.
Qed.

(** C7.  When [send_message_lines] returns, the chunks it sent, in order,
    are within the limit, put together give back the lines as truncated,
    are as few as any such cutting of the lines, and each was closed only
    because the next line would have taken it over the limit.  Every
    content posted is within the limit. *)
Theorem send_message_lines_chunking url lines delay script evs rest :
  send_message_lines url lines delay script = (evs, Done tt rest) ->
  Forall (fun c => chunk_len c <= DISCORD_SPLIT_LIMIT) (sends evs)
  /\ concat (sends evs) = map fit_line lines
  /\ (forall P,
        concat P = map fit_line lines ->
        Forall (fun c => chunk_len c <= DISCORD_SPLIT_LIMIT) P ->
        (length (sends evs) <= length P)%nat)
  /\ (forall i c l c',
        sends evs !! i = Some c -> sends evs !! S i = Some (l :: c') ->
        DISCORD_SPLIT_LIMIT < chunk_len c + py_len l)
  /\ Forall (fun c => py_len c <= DISCORD_SPLIT_LIMIT) (posts evs).
Proof.
  intros Hrun. unfold send_message_lines in Hrun.
  assert (Forall (fun c => chunk_len c <= DISCORD_SPLIT_LIMIT)
            (chunks_of lines)) as Hbound.
  { apply chunk_loop_bound; [done|]. unfold DISCORD_SPLIT_LIMIT. lia. }
  pose proof (send_loop_sends url delay lines [] 0 script) as [_ Hdone].
  pose proof (send_loop_posts url delay lines [] 0 script) as Hposts.
  rewrite Hrun in Hdone, Hposts. simpl in Hdone, Hposts.
  specialize (Hdone rest eq_refl). fold (chunks_of lines) in Hdone.
  rewrite Hdone in *. split; [done|]. split; [|split; [|split]].
  - unfold chunks_of. by rewrite chunk_loop_concat.
  - apply chunks_of_minimal.
  - intros i c l c'. apply tight_lookup, chunks_of_tight.
  - eapply Forall_impl; [exact Hposts|]. intros c (chunk & Hin & ->).
    rewrite Forall_forall in Hbound. by apply Hbound.
Qed.

(** C8.  A line longer than the limit is sent as its first 1900
    characters, stripped on the right, followed by the marker [" [...]"].
    The result is within the limit, and the line alone makes one chunk whose
    posted content is that result. *)
Theorem long_line_truncated url line delay script :
  DISCORD_SPLIT_LIMIT < py_len line ->
  fit_line line = rstrip (slice_to 1900 line) ++ lit " [...]"
  /\ py_len (fit_line line) <= DISCORD_SPLIT_LIMIT
  /\ sends (fst (send_message_lines url [line] delay script))
     = [[fit_line line]]
  /\ Forall (fun c => c = fit_line line)
       (posts (fst (send_message_lines url [line] delay script))).
Proof.
  intros Hlong.
  assert (fit_line line = truncated line) as Hfit.
  { unfold fit_line. destruct (Z.ltb_spec DISCORD_SPLIT_LIMIT (py_len line));
      [done|lia]. }
  split; [by rewrite Hfit|]. split; [apply py_len_fit_line|].
  unfold send_message_lines. cbn [send_loop]. fold (fit_line line).
  pose proof (py_len_fit_line line).
  destruct (Z.ltb_spec DISCORD_SPLIT_LIMIT (0 + py_len (fit_line line)));
    [lia|].
  change ([] ++ [fit_line line]) with [fit_line line].
  rewrite bool_decide_eq_false_2 by done.
  destruct (send_discord_webhook_events url [fit_line line] script)
    as [Hs Hp].
  split; [done|]. simpl in Hp. by rewrite app_nil_r in Hp.
Qed.

(** C10.  No chunk handed to [send_discord_webhook] is empty, however the
    webhook answers; and without lines nothing is done at all. *)
Theorem send_message_lines_no_empty_chunk url lines delay script :
  Forall (fun chunk => chunk <> [])
    (sends (fst (send_message_lines url lines delay script)))
  /\ fst (send_message_lines url [] delay script) = [].
Proof.
  split; [|done]. unfold send_message_lines.
  destruct (send_loop_sends url delay lines [] 0 script) as [[later Hl] _].
  pose proof (chunk_loop_nonempty lines [] 0) as Hne.
  rewrite Hl in Hne. by apply Forall_app in Hne as [? _].
Qed.

(** ** The retry loop *)

Section RetryLoop.

Context (url : pystr) (body : discord_body).

(** 200 and 204 end the loop. *)
Lemma webhook_loop_success attempt resp rest :
  status_code resp = 200 \/ status_code resp = 204 ->
  webhook_loop url body attempt (resp :: rest)
  = ([EvPost url body], Done tt rest).
Proof. intros [H|H]; simpl; by rewrite H. Qed.

(** 429 sleeps and tries again, whatever the number of attempts. *)
Lemma webhook_loop_rate_limited attempt resp rest :
  status_code resp = 429 ->
  webhook_loop url body attempt (resp :: rest)
  = let '(evs, o) := webhook_loop url body (attempt + 1) rest in
    (EvPost url body
       :: EvSleep (floor0 match json_retry_after resp with
                          | Some r => r
                          | None => default 1%Q (header_retry_after resp)
                          end)
       :: evs, o).
Proof. intros H. simpl. by rewrite H. Qed.

(** Any number of 429 responses is waited out. *)
Lemma webhook_loop_rate_limited_unbounded n attempt rest :
  webhook_loop url body attempt
    (replicate n (status_only 429) ++ status_only 204 :: rest)
  = (concat (replicate n [EvPost url body; EvSleep 1%Q])
       ++ [EvPost url body], Done tt rest).
Proof.
  revert attempt; induction n as [|n IH]; intros attempt; [done|].
  cbn [replicate app concat]. rewrite webhook_loop_rate_limited by done.
  by rewrite IH.
Qed.

(** A transient 5xx before the sixth attempt backs off and tries again. *)
Lemma webhook_loop_transient attempt resp rest :
  status_code resp ∈ [500; 502; 503; 504] -> attempt + 1 < 6 ->
  webhook_loop url body attempt (resp :: rest)
  = let '(evs, o) := webhook_loop url body (attempt + 1) rest in
    (EvPost url body
       :: EvSleep (inject_Z (Z.min (2 ^ (attempt + 1)) 30)) :: evs, o).
Proof.
  intros Hs Hlt. simpl.
  destruct (Z.ltb_spec (attempt + 1) 6); [|lia].
  repeat (apply elem_of_cons in Hs as [->|Hs]); try done.
  by apply elem_of_nil in Hs.
Qed.

(** A 4xx or 5xx that is not retried raises at once. *)
Lemma webhook_loop_error attempt resp rest :
  400 <= status_code resp < 600 -> status_code resp <> 429 ->
  status_code resp ∉ [500; 502; 503; 504] \/ 6 <= attempt + 1 ->
  webhook_loop url body attempt (resp :: rest)
  = ([EvPost url body], Raised (HTTPError (status_code resp))).
Proof.
  intros Hrange H429 Hcap. simpl. unfold raise_for_status.
  destruct (Z.eqb_spec (status_code resp) 200); [lia|].
  destruct (Z.eqb_spec (status_code resp) 204); [lia|].
  destruct (Z.eqb_spec (status_code resp) 429); [lia|]. simpl.
  destruct (Z.leb_spec 400 (status_code resp)); [|lia].
  destruct (Z.ltb_spec (status_code resp) 600); [|lia]. simpl.
  destruct Hcap as [Hcap|Hcap].
  - destruct (Z.eqb_spec (status_code resp) 500);
      [exfalso; apply Hcap; rewrite e; set_solver|].
    destruct (Z.eqb_spec (status_code resp) 502);
      [exfalso; apply Hcap; rewrite e; set_solver|].
    destruct (Z.eqb_spec (status_code resp) 503);
      [exfalso; apply Hcap; rewrite e; set_solver|].
    destruct (Z.eqb_spec (status_code resp) 504);
      [exfalso; apply Hcap; rewrite e; set_solver|]. done.
  - destruct (Z.ltb_spec (attempt + 1) 6); [lia|].
    by rewrite andb_false_r.
Qed.

(** Six 503 responses in a row: five back-offs, then the error. *)
Lemma webhook_loop_retry_cap rest :
  webhook_loop url body 0 (replicate 6 (status_only 503) ++ rest)
  = ([EvPost url body; EvSleep 2%Q; EvPost url body; EvSleep 4%Q;
      EvPost url body; EvSleep 8%Q; EvPost url body; EvSleep 16%Q;
      EvPost url body; EvSleep 30%Q; EvPost url body],
     Raised (HTTPError 503)).
Proof. reflexivity. Qed.

(** A status below 400 other than 200 and 204 raises nothing: the loop
    posts again at once. *)
Lemma webhook_loop_not_an_error attempt resp rest :
  status_code resp < 400 \/ 600 <= status_code resp ->
  status_code resp <> 200 -> status_code resp <> 204 ->
  webhook_loop url body attempt (resp :: rest)
  = let '(evs, o) := webhook_loop url body (attempt + 1) rest in
    (EvPost url body :: evs, o).
Proof.
  intros Hrange H200 H204. simpl. unfold raise_for_status.
  destruct (Z.eqb_spec (status_code resp) 200); [lia|].
  destruct (Z.eqb_spec (status_code resp) 204); [lia|].
  destruct (Z.eqb_spec (status_code resp) 429); [lia|].
  destruct (Z.eqb_spec (status_code resp) 500); [lia|].
  destruct (Z.eqb_spec (status_code resp) 502); [lia|].
  destruct (Z.eqb_spec (status_code resp) 503); [lia|].
  destruct (Z.eqb_spec (status_code resp) 504); [lia|]. simpl.
  destruct (Z.leb_spec 400 (status_code resp)),
    (Z.ltb_spec (status_code resp) 600); try lia; done.
Qed.

End RetryLoop.

(** C9, where the code departs from it.  A 202 answer is neither accepted
    nor raised: the message is posted a second time, and the 204 that
    follows ends the call without any error. *)
Theorem send_discord_webhook_status_202 url lines :
  send_discord_webhook url lines [status_only 202; status_only 204]
  = ([EvSend lines;
      EvPost url (get_discord_body (concat lines));
      EvPost url (get_discord_body (concat lines))],
     Done tt []).
Proof. reflexivity. Qed.

(** ** Worked examples *)

Lemma diff_entries_id_disjoint_witness :
  diff_entries sample_old sample_new
  = Ok ([sample_entry 4 "g"], [sample_entry 2 "B"], [sample_entry 1 "a"])
  /\ ((forall a m, a ∈ [sample_entry 4 "g"] -> m ∈ [sample_entry 2 "B"] ->
                   ids_differ a m)
      /\ (forall a r, a ∈ [sample_entry 4 "g"] -> r ∈ [sample_entry 1 "a"] ->
                      ids_differ a r)
      /\ (forall m r, m ∈ [sample_entry 2 "B"] -> r ∈ [sample_entry 1 "a"] ->
                      ids_differ m r)).
Proof.
  split; [vm_compute; reflexivity|].
  apply (diff_entries_id_disjoint sample_old sample_new).
  vm_compute; reflexivity.
Defined.

Lemma diff_entries_modified_witness :
  diff_entries sample_old sample_new
  = Ok ([sample_entry 4 "g"], [sample_entry 2 "B"], [sample_entry 1 "a"])
  /\ [sample_entry 2 "B"]
     = filter (fun e => is_modified sample_old sample_new e) sample_new.
Proof.
  split; [vm_compute; reflexivity|].
  apply (diff_entries_modified sample_old sample_new
           [sample_entry 4 "g"] [sample_entry 2 "B"] [sample_entry 1 "a"]).
  vm_compute; reflexivity.
Defined.


(** C4 as stated fails: with an unhashable id the diff of a list against
    itself raises [TypeError] and returns nothing. *)
Lemma diff_entries_self_unhashable :
  diff_entries [unhashable_entry] [unhashable_entry] = Raise TypeError.
Proof. vm_compute; reflexivity. Qed.

Lemma diff_entries_self_witness :
  hashable_ids sample_old = true
  /\ forallb wf_entry sample_old = true
  /\ diff_entries sample_old sample_old = Ok ([], [], []).
Proof.
  split; [vm_compute; reflexivity|]. split; [vm_compute; reflexivity|].
  apply (diff_entries_self sample_old); vm_compute; reflexivity.
Defined.

Lemma send_message_lines_chunking_witness :
  send_message_lines (lit "u") sample_lines 2%Q sample_script
  = (fst (send_message_lines (lit "u") sample_lines 2%Q sample_script),
     Done tt [])
  /\ map (map py_len)
       (sends (fst (send_message_lines (lit "u") sample_lines 2%Q
                      sample_script)))
     = [[1500]; [1906]; [1500; 3]]
  /\ concat (sends (fst (send_message_lines (lit "u") sample_lines 2%Q
                           sample_script)))
     = map fit_line sample_lines.
Proof.
  split; [vm_compute; reflexivity|]. split; [vm_compute; reflexivity|].
  apply (send_message_lines_chunking (lit "u") sample_lines 2%Q sample_script
           (fst (send_message_lines (lit "u") sample_lines 2%Q sample_script))
           []).
  vm_compute; reflexivity.
Defined.

(** The 2500-character line of C8. *)
Lemma long_line_truncated_witness :
  DISCORD_SPLIT_LIMIT < py_len (replicate 2500 97%N)
  /\ fit_line (replicate 2500 97%N) = replicate 1900 97%N ++ lit " [...]"
  /\ py_len (fit_line (replicate 2500 97%N)) <= DISCORD_SPLIT_LIMIT
  /\ posts (fst (send_message_lines (lit "u") [replicate 2500 97%N] 2%Q
                   [status_only 204]))
     = [replicate 1900 97%N ++ lit " [...]"].
Proof.
  assert (DISCORD_SPLIT_LIMIT < py_len (replicate 2500 97%N)) as Hlong
    by (vm_compute; reflexivity).
  split; [exact Hlong|].
  destruct (long_line_truncated (lit "u") (replicate 2500 97%N) 2%Q
              [status_only 204] Hlong) as (_ & Hlen & _ & _).
  split; [vm_compute; reflexivity|]. split; [exact Hlen|].
  vm_compute; reflexivity.
Defined.

(** ** More on the delta engine *)

Lemma hashable_ids_forall es :
  hashable_ids es = true <-> forall e, e ∈ es -> hashable (entry_id e) = true.
Proof.
  split.
  - intros Hes e He. destruct (has_id e) eqn:Hid.
    + by apply (hashable_ids_elem es).
    + unfold has_id in Hid. by destruct (entry_id e).
  - intros H. unfold hashable_ids. apply forallb_forall. intros v Hv.
    unfold ids_of in Hv. apply in_map_iff in Hv as (e & <- & He).
    apply H. apply list_elem_of_In in He.
    by apply list_elem_of_filter in He as [_ ?].
Qed.

(** X1.  [diff_entries] returns exactly when the id of every entry of both
    lists is hashable ([None], a boolean, an integer or a string); when an
    id is a list or a dict it raises, and the exception is [TypeError]. *)
Theorem diff_entries_returns_iff old new :
  ((exists res, diff_entries old new = Ok res) <->
   forall e, e ∈ old ++ new -> hashable (entry_id e) = true)
  /\ (forall ex, diff_entries old new = Raise ex -> ex = TypeError).
Proof.
  rewrite diff_entries_spec. split.
  - setoid_rewrite elem_of_app. split.
    + intros [res Hres] e He.
      destruct (hashable_ids old) eqn:Hold; [|done].
      destruct (hashable_ids new) eqn:Hnew; [|done].
      rewrite hashable_ids_forall in Hold, Hnew. destruct He; eauto.
    + intros H.
      assert (hashable_ids old = true) as ->
        by (apply hashable_ids_forall; eauto).
      assert (hashable_ids new = true) as ->
        by (apply hashable_ids_forall; eauto).
      by eexists.
  - intros ex. destruct (_ && _); congruence.
Qed.

(** X2.  An entry without an id is in none of the three lists. *)
Theorem diff_entries_outputs_have_ids old new added modified removed :
  diff_entries old new = Ok (added, modified, removed) ->
  Forall (fun e => is_none (py_get (lit "id") e) = false)
    (added ++ modified ++ removed).
Proof.
  intros (_ & _ & -> & -> & ->)%diff_entries_ok_inv.
  rewrite !Forall_app, !Forall_forall. repeat split; intros e.
  - intros (_ & Hid & _)%elem_of_added_of. unfold has_id, entry_id in Hid.
    by apply negb_true_iff.
  - intros (_ & Hmod)%elem_of_modified_of.
    apply is_modified_iff in Hmod as (Hid & _). by apply negb_true_iff.
  - intros (_ & Hid & _)%elem_of_removed_of. by apply negb_true_iff.
Qed.

(** X3.  [added] and [modified] are made of entries of [new_entries], in
    their order and no more often than they occur there; [removed] likewise
    of [old_entries]. *)
Theorem diff_entries_sublists old new added modified removed :
  diff_entries old new = Ok (added, modified, removed) ->
  added `sublist_of` new /\ modified `sublist_of` new
  /\ removed `sublist_of` old.
Proof.
  intros (_ & _ & -> & -> & ->)%diff_entries_ok_inv.
  repeat split; apply sublist_filter.
Qed.

(** X4.  Diffing in the other direction exchanges [added] and [removed]. *)
Theorem diff_entries_swap old new added modified removed :
  diff_entries old new = Ok (added, modified, removed) ->
  exists modified', diff_entries new old = Ok (removed, modified', added).
Proof.
  intros (Hold & Hnew & -> & -> & ->)%diff_entries_ok_inv.
  exists (modified_of new old). by rewrite diff_entries_returns.
Qed.

(** X5.  Against an empty list every entry that carries an id is added,
    respectively removed, and nothing is modified. *)
Theorem diff_entries_empty_side l :
  hashable_ids l = true ->
  diff_entries [] l = Ok (filter (fun e => has_id e) l, [], [])
  /\ diff_entries l [] = Ok ([], [], filter (fun e => has_id e) l).
Proof.
  intros Hl.
  assert (forall other : list entry,
            filter (fun e => has_id e && negb (id_in (entry_id e) [])) other
            = filter (fun e => has_id e) other) as Hnone.
  { intros other. apply filter_ext_in. intros e _. unfold id_in. simpl.
    by rewrite andb_true_r. }
  assert (modified_of [] l = []) as Hm1.
  { apply filter_nil_bool. intros e _. unfold is_modified, multiplicity.
    simpl. by destruct (has_id e). }
  assert (modified_of l [] = []) as Hm2 by done.
  split; rewrite diff_entries_returns by done;
    unfold added_of, removed_of; rewrite ?Hnone, ?Hm1, ?Hm2; done.
Qed.

(** X6.  An entry that stands unchanged in both lists is in none of the
    three lists. *)
Theorem diff_entries_unchanged old new added modified removed e :
  diff_entries old new = Ok (added, modified, removed) ->
  e ∈ old -> e ∈ new -> wf_entry e = true ->
  (e ∉ added) /\ (e ∉ modified) /\ (e ∉ removed).
Proof.
  intros (Hold & Hnew & -> & -> & ->)%diff_entries_ok_inv Heold Henew Hwf.
  split; [|split].
  - intros (_ & Hid & Hin)%elem_of_added_of. by rewrite id_in_self in Hin.
  - intros (_ & Hmod)%elem_of_modified_of.
    apply is_modified_iff in Hmod as (Hid & Hone & _ & o & Ho & Hne).
    assert (hashable (entry_id e) = true) as Hh
      by by apply (hashable_ids_elem old).
    assert (e ∈ with_id (entry_id e) old) as Hin.
    { apply list_elem_of_filter. split; [|done]. rewrite Hid. simpl.
      rewrite py_eq_key by done. by apply bool_decide_pack. }
    rewrite multiplicity_with_id in Hone.
    destruct (with_id (entry_id e) old) as [|o' [|o'' l']]; try done.
    apply list_elem_of_singleton in Hin as <-. injection Ho as <-.
    by rewrite py_eq_refl in Hne.
  - intros (_ & Hid & Hin)%elem_of_removed_of. by rewrite id_in_self in Hin.
Qed.

(** ** More on the delivery pipeline *)

Lemma floor0_nonneg x : (0 <= floor0 x)%Q.
Proof.
  unfold floor0. destruct (Qle_bool 0 x) eqn:H; [|apply Qle_refl].
  by apply Qle_bool_iff.
Qed.

Lemma backoff_nonneg attempt : (0 <= inject_Z (Z.min (2 ^ attempt) 30))%Q.
Proof.
  assert (0 <= 2 ^ attempt) by (apply Z.pow_nonneg; lia).
  unfold Qle. simpl. lia.
Qed.

Ltac step_webhook_loop :=
  repeat match goal with
         | |- context [if ?b then _ else _] => destruct b eqn:?
         | |- context [match raise_for_status ?s with _ => _ end] =>
             destruct (raise_for_status s) eqn:?
         end.

Lemma webhook_loop_sleeps url body attempt script :
  Forall (fun ev => match ev with EvSleep d => (0 <= d)%Q | _ => True end)
    (fst (webhook_loop url body attempt script)).
Proof.
  revert attempt; induction script as [|resp script IH]; intros attempt;
    [constructor|].
  simpl. specialize (IH (attempt + 1)).
  destruct (webhook_loop url body (attempt + 1) script) as [evs o].
  simpl in IH. step_webhook_loop; simpl; repeat constructor; try done.
  - apply floor0_nonneg.
  - apply backoff_nonneg.
Qed.

Lemma webhook_loop_requests url body attempt script :
  Forall (fun ev => match ev with
                    | EvPost u b => u = url /\ b = body
                    | _ => True
                    end)
    (fst (webhook_loop url body attempt script)).
Proof.
  revert attempt; induction script as [|resp script IH]; intros attempt;
    [constructor|].
  simpl. specialize (IH (attempt + 1)).
  destruct (webhook_loop url body (attempt + 1) script) as [evs o].
  simpl in IH. step_webhook_loop; simpl; by repeat constructor.
Qed.



(** [send_discord_webhook] announces the chunk and runs the retry loop. *)
Lemma send_discord_webhook_unfold url chunk script :
  send_discord_webhook url chunk script
  = (EvSend chunk
       :: fst (webhook_loop url (get_discord_body (concat chunk)) 0 script),
     snd (webhook_loop url (get_discord_body (concat chunk)) 0 script)).
Proof.
  unfold send_discord_webhook, mbind, io_mbind, io_bind, emit.
  by destruct (webhook_loop url (get_discord_body (concat chunk)) 0 script)
    as [evs [[] rest| |]].
Qed.

(** One round of the loop of [send_message_lines]. *)
Lemma send_loop_cons url delay l lines cl clen script :
  send_loop url delay (l :: lines) cl clen script
  = if DISCORD_SPLIT_LIMIT <? clen + py_len (fit_line l) then
      match cl with
      | [] => send_loop url delay lines [fit_line l] (py_len (fit_line l))
                script
      | _ =>
          match send_discord_webhook url cl script with
          | (evs, Done _ rest) =>
              ((evs ++ [EvSleep (floor0 delay)])
                 ++ fst (send_loop url delay lines [fit_line l]
                           (py_len (fit_line l)) rest),
               snd (send_loop url delay lines [fit_line l]
                      (py_len (fit_line l)) rest))
          | (evs, Raised e) => (evs, Raised e)
          | (evs, Pending) => (evs, Pending)
          end
      end
    else send_loop url delay lines (cl ++ [fit_line l])
           (clen + py_len (fit_line l)) script.
Proof.
  cbn [send_loop]. fold (fit_line l).
  destruct (DISCORD_SPLIT_LIMIT <? clen + py_len (fit_line l)); [|done].
  destruct cl as [|l0 cl].
  - unfold mbind, io_mbind, io_bind, io_ret. simpl.
    by destruct (send_loop url delay lines [fit_line l] (py_len (fit_line l))
                   script).
  - rewrite bool_decide_eq_false_2 by done.
    unfold mbind, io_mbind, io_bind, emit.
    destruct (send_discord_webhook url (l0 :: cl) script)
      as [evs [[] rest| |]]; try done.
    by destruct (send_loop url delay lines [fit_line l] (py_len (fit_line l))
                   rest).
Qed.

Lemma send_loop_nil url delay cl clen script :
  send_loop url delay [] cl clen script
  = match cl with
    | [] => ([], Done tt script)
    | _ => send_discord_webhook url cl script
    end.
Proof. by destruct cl. Qed.

(** What holds of every event of every delivery and of the pause holds of
    every event of a run. *)
Lemma send_loop_forall (P : event -> Prop) url delay lines cl clen script :
  (forall chunk script',
      Forall P (fst (send_discord_webhook url chunk script'))) ->
  P (EvSleep (floor0 delay)) ->
  Forall P (fst (send_loop url delay lines cl clen script)).
Proof.
  intros Hsend Hsleep. revert cl clen script.
  induction lines as [|l lines IH]; intros cl clen script.
  - rewrite send_loop_nil. destruct cl; [constructor|apply Hsend].
  - rewrite send_loop_cons.
    destruct (DISCORD_SPLIT_LIMIT <? clen + py_len (fit_line l)); [|apply IH].
    destruct cl as [|l0 cl]; [apply IH|].
    specialize (Hsend (l0 :: cl) script).
    destruct (send_discord_webhook url (l0 :: cl) script)
      as [evs [[] rest| |]]; simpl in *; try done.
    rewrite !Forall_app. repeat split; try done. by constructor.
Qed.

(** X7.  No run of [send_message_lines] sleeps for a negative time,
    whatever the webhook answers and whatever the delay configured. *)
Theorem send_message_lines_sleeps_nonneg url lines delay script :
  Forall (fun ev => match ev with EvSleep d => (0 <= d)%Q | _ => True end)
    (fst (send_message_lines url lines delay script)).
Proof.
  apply send_loop_forall; [|apply floor0_nonneg].
  intros chunk script'. rewrite send_discord_webhook_unfold. simpl.
  constructor; [done|]. apply webhook_loop_sleeps.
Qed.

(** X8.  Every request of a run goes to the webhook given, allows no
    mention and carries the flag that suppresses embeds. *)
Theorem send_message_lines_requests url lines delay script :
  Forall (fun ev => match ev with
                    | EvPost u b =>
                        u = url /\ allowed_mentions_parse b = []
                        /\ flags b = 4
                    | _ => True
                    end)
    (fst (send_message_lines url lines delay script)).
Proof.
  apply send_loop_forall; [|done].
  intros chunk script'. rewrite send_discord_webhook_unfold. simpl.
  constructor; [done|].
  eapply Forall_impl; [apply webhook_loop_requests|].
  intros [| |]; try done. by intros [-> ->].
Qed.



(** X10.  Whatever the webhook answers, the chunks handed over are the
    first chunks of the chunking, in order: after a delivery that fails no
    later chunk is tried, and none is skipped or repeated. *)
Theorem send_message_lines_sends_prefix url lines delay script :
  sends (fst (send_message_lines url lines delay script))
    `prefix_of` chunks_of lines.
Proof.
  destruct (send_loop_sends url delay lines [] 0 script) as [[later Hl] _].
  by exists later.
Qed.

Lemma send_discord_webhook_accepted url chunk resp script :
  status_code resp = 200 \/ status_code resp = 204 ->
  send_discord_webhook url chunk (resp :: script)
  = ([EvSend chunk; EvPost url (get_discord_body (concat chunk))],
     Done tt script).
Proof.
  intros H. rewrite send_discord_webhook_unfold.
  by rewrite webhook_loop_success.
Qed.

Lemma chunk_loop_not_nil lines cl clen :
  cl <> [] -> chunk_loop lines cl clen <> [].
Proof.
  intros Hne Hnil. pose proof (chunk_loop_length lines cl clen Hne) as Hlen.
  by rewrite Hnil in Hlen.
Qed.

Lemma send_loop_accepted url delay lines cl clen script :
  Forall (fun r => status_code r = 200 \/ status_code r = 204) script ->
  (length (chunk_loop lines cl clen) <= length script)%nat ->
  send_loop url delay lines cl clen script
  = (accepted_trace url delay (chunk_loop lines cl clen),
     Done tt (drop (length (chunk_loop lines cl clen)) script)).
Proof.
  revert cl clen script; induction lines as [|l lines IH];
    intros cl clen script Hok Hlen.
  - rewrite send_loop_nil. simpl in *. destruct cl as [|l0 cl]; [done|].
    simpl in *. destruct script as [|r script]; [simpl in Hlen; lia|].
    apply Forall_cons in Hok as [Hr _].
    by rewrite send_discord_webhook_accepted.
  - rewrite send_loop_cons. cbn [chunk_loop] in *.
    destruct (DISCORD_SPLIT_LIMIT <? clen + py_len (fit_line l));
      [|by apply IH].
    destruct cl as [|l0 cl]; [by apply IH|].
    rewrite bool_decide_eq_false_2 in * by done.
    cbn [app length] in Hlen.
    destruct script as [|r script]; [simpl in Hlen; lia|].
    apply Forall_cons in Hok as [Hr Hok]. cbn [length] in Hlen.
    rewrite send_discord_webhook_accepted by done.
    rewrite IH by (done || lia). simpl.
    pose proof (chunk_loop_not_nil lines [fit_line l] (py_len (fit_line l)))
      as Hne.
    destruct (chunk_loop lines [fit_line l] (py_len (fit_line l)));
      [by destruct Hne|done].
Qed.

(** X11.  When the webhook accepts every message at the first attempt, the
    run is: each chunk of the chunking sent and posted once, in order, with
    one pause of the delay (not below zero) between two chunks and none
    after the last; it returns and uses one response per chunk. *)
Theorem send_message_lines_accepted url lines delay script :
  Forall (fun r => status_code r = 200 \/ status_code r = 204) script ->
  (length (chunks_of lines) <= length script)%nat ->
  send_message_lines url lines delay script
  = (accepted_trace url delay (chunks_of lines),
     Done tt (drop (length (chunks_of lines)) script)).
Proof. apply send_loop_accepted. Qed.

Lemma is_transient_elem status :
  is_transient status = true -> status ∈ [500; 502; 503; 504].
Proof.
  unfold is_transient. rewrite !orb_true_iff, !Z.eqb_eq.
  intros [[[->| ->]| ->]| ->]; set_solver.
Qed.

(** X12.  Six transient answers (500, 502, 503 or 504) in a row to one
    message: it is posted six times, with waits of 2, 4, 8, 16 and 30
    seconds in between, and the sixth answer is raised as the error; the
    responses after it are not used. *)
Theorem send_discord_webhook_transient_cap url chunk rs r rest :
  length rs = 5%nat ->
  Forall (fun r => is_transient (status_code r) = true) (rs ++ [r]) ->
  let post := EvPost url (get_discord_body (concat chunk)) in
  send_discord_webhook url chunk (rs ++ r :: rest)
  = ([EvSend chunk; post; EvSleep 2%Q; post; EvSleep 4%Q; post; EvSleep 8%Q;
      post; EvSleep 16%Q; post; EvSleep 30%Q; post],
     Raised (HTTPError (status_code r))).
Proof.
  intros Hlen Hall post.
  destruct rs as [|r1 [|r2 [|r3 [|r4 [|r5 [|r6 rs]]]]]]; try done.
  repeat (apply Forall_cons in Hall as [?%is_transient_elem Hall]).
  rewrite send_discord_webhook_unfold. cbn [app].
  rewrite !webhook_loop_transient by (done || lia).
  rewrite webhook_loop_error; [done| | |right; lia].
  - set_solver by lia.
  - set_solver by lia.
Qed.

(** X13.  Answers of 429 are waited out without limit: each is followed by
    a sleep of the wait it asks for (not below zero) and a new attempt, and
    the first 200 or 204 ends the call. *)
Theorem send_discord_webhook_rate_limited url chunk rs r rest :
  Forall (fun r => status_code r = 429) rs ->
  status_code r = 200 \/ status_code r = 204 ->
  let post := EvPost url (get_discord_body (concat chunk)) in
  send_discord_webhook url chunk (rs ++ r :: rest)
  = (EvSend chunk
       :: flat_map (fun r => [post; EvSleep (floor0 (retry_after_of r))]) rs
       ++ [post],
     Done tt rest).
Proof.
  intros Hall Hr post. rewrite send_discord_webhook_unfold.
  assert (forall attempt,
            webhook_loop url (get_discord_body (concat chunk)) attempt
              (rs ++ r :: rest)
            = (flat_map (fun r => [post; EvSleep (floor0 (retry_after_of r))])
                 rs ++ [post], Done tt rest)) as ->; [|done].
  induction Hall as [|r0 rs Hr0 _ IH]; intros attempt.
  - cbn [app flat_map]. by rewrite webhook_loop_success.
  - cbn [app flat_map]. rewrite webhook_loop_rate_limited by done.
    by rewrite IH.
Qed.

(** X14.  A 4xx or 5xx answer that is neither 429 nor transient is raised
    at the first attempt: one request, no sleep, no retry. *)
Theorem send_discord_webhook_fatal url chunk r rest :
  400 <= status_code r < 600 -> status_code r <> 429 ->
  is_transient (status_code r) = false ->
  send_discord_webhook url chunk (r :: rest)
  = ([EvSend chunk; EvPost url (get_discord_body (concat chunk))],
     Raised (HTTPError (status_code r))).
Proof.
  intros Hrange H429 Htr. rewrite send_discord_webhook_unfold.
  rewrite webhook_loop_error; try done. left. intros Hin.
  unfold is_transient in Htr. rewrite !orb_false_iff, !Z.eqb_neq in Htr.
  set_solver.
Qed.

(** ** The changelog filter and the YAML front end *)

Lemma startswith_iff s prefix :
  startswith s prefix = true <-> exists rest, s = prefix ++ rest.
Proof.
  revert s; induction prefix as [|p prefix IH]; intros s; simpl.
  - split; [intros _; by exists s|done].
  - destruct s as [|c s].
    + split; [done|]. by intros [rest ?].
    + rewrite andb_true_iff, N.eqb_eq, IH. split.
      * intros [-> [rest ->]]. by exists rest.
      * intros [rest [= -> ->]]. split; [done|]. by exists rest.
Qed.

Lemma endswith_iff s suffix :
  endswith s suffix = true <-> exists stem, s = stem ++ suffix.
Proof.
  unfold endswith. rewrite startswith_iff. split.
  - intros [rest H]. exists (rev rest).
    apply (f_equal (@rev _)) in H. by rewrite rev_involutive, rev_app_distr,
      rev_involutive in H.
  - intros [stem ->]. exists (rev stem). by rewrite rev_app_distr.
Qed.

(** X15.  A path counts as a changelog file exactly when it starts with
    the changelog directory followed by a slash and ends with the
    extension. *)
Theorem is_changelog_file_iff path changelog_dir changelog_ext :
  is_changelog_file path changelog_dir changelog_ext = true <->
  (exists rest, path = changelog_dir ++ [SLASH] ++ rest)
  /\ (exists stem, path = stem ++ changelog_ext).
Proof.
  unfold is_changelog_file.
  rewrite andb_true_iff, startswith_iff, endswith_iff.
  by setoid_rewrite <- app_assoc.
Qed.

Section YamlProps.

Context (safe_load : pystr -> fallible value).

(** X16.  Byte-order marks at the start of the text, however many, do not
    change what [parse_yaml] returns. *)
Theorem parse_yaml_bom n text :
  parse_yaml safe_load (Some (replicate n BOM ++ text))
  = parse_yaml safe_load (Some text).
Proof.
  unfold parse_yaml. f_equal.
  induction n as [|n IH]; [done|].
  cbn [replicate app lstrip_char]. by rewrite N.eqb_refl.
Qed.

(** X17.  [parse_yaml] never returns [None]: a missing file gives the empty
    dict, and so does a text that [yaml.safe_load] loads as [None]. *)
Theorem parse_yaml_not_none text data :
  parse_yaml safe_load text = Success data ->
  is_none data = false
  /\ (text = None -> data = VDict [])
  /\ (forall t, text = Some t ->
        safe_load (lstrip_char BOM t) = Success VNone -> data = VDict []).
Proof.
  unfold parse_yaml. destruct text as [t|].
  - destruct (safe_load (lstrip_char BOM t)) as [v|e] eqn:Hload; [|done].
    simpl. intros [= <-]. split; [by destruct v|]. split; [done|].
    intros t' [= <-] Hnone. rewrite Hload in Hnone. by injection Hnone as ->.
  - intros [= <-]. by repeat split.
Qed.

End YamlProps.

(** ** Requests to the code host *)

Section HostProps.

Context (api : pystr) (py_repr : value -> pystr)
        (safe_load : pystr -> fallible value) (quote : pystr -> pystr).

(** X18.  [get_repo_file_text] makes one request.  A 404 is no error: the
    file is reported missing; any other 4xx or 5xx is raised; otherwise the
    text of the response is returned. *)
Theorem get_repo_file_text_status s repo path sha resp rest d :
  get_repo_file_text api quote s repo path sha
    {| github := resp :: rest; discord := d |}
  = ([Get (content_request api quote s repo path sha)],
     if gh_status resp =? 404 then
       Returned None {| github := rest; discord := d |}
     else if (400 <=? gh_status resp) && (gh_status resp <? 600) then
       Failed (Builtin (HTTPError (gh_status resp)))
     else Returned (Some (gh_text resp)) {| github := rest; discord := d |}).
Proof.
  unfold get_repo_file_text, mbind, prog_mbind, prog_bind, session_get.
  cbn [github discord]. fold (content_request api quote s repo path sha).
  destruct (gh_status resp =? 404); [done|].
  unfold gh_raise_for_status, raise_for_status.
  by destruct ((400 <=? gh_status resp) && (gh_status resp <? 600)).
Qed.

Lemma collect_filenames_dicts items files :
  collect_filenames py_repr (map VDict items) files
  = Success (files ++ filenames_of py_repr items).
Proof.
  revert files; induction items as [|item items IH]; intros files; simpl.
  - by rewrite app_nil_r.
  - rewrite IH. destruct (truthy (py_get (lit "filename") item)); simpl.
    + by rewrite <- app_assoc.
    + done.
Qed.

Lemma page_requests_cons s repo pr first n :
  page_requests api s repo pr first (S n)
  = Get (files_request api s repo pr first)
    :: page_requests api s repo pr (first + 1) n.
Proof.
  unfold page_requests. cbn [seq map]. rewrite Z.add_0_r. f_equal.
  rewrite <- seq_shift, map_map. apply map_ext. intros i.
  do 2 f_equal. lia.
Qed.

Lemma list_pr_files_loop_pages s repo pr files page rs batches last rest d :
  Forall2 served_page rs batches ->
  raise_for_status (gh_status last) = Ok tt ->
  (exists b, gh_json last = Some b /\ truthy b = false) ->
  list_pr_files_loop api py_repr s repo pr files page (rs ++ last :: rest) d
  = (page_requests api s repo pr page (S (length rs)),
     Returned (files ++ concat (map (filenames_of py_repr) batches))
       {| github := rest; discord := d |}).
Proof.
  intros Hpages Hlast (b & Hb & Hfalsy). revert files page.
  induction Hpages as [|r items rs batches (Hr & Hjson & Hne) _ IH];
    intros files page.
  - cbn [app list_pr_files_loop]. rewrite Hlast, Hb, Hfalsy. simpl.
    rewrite app_nil_r. unfold page_requests. simpl. by rewrite Z.add_0_r.
  - cbn [app list_pr_files_loop]. rewrite Hr, Hjson.
    assert (truthy (VList (map VDict items)) = true) as ->.
    { by destruct items. }
    cbn [negb iterate_batch length map concat].
    rewrite (page_requests_cons s repo pr page (S (length rs))).
    by rewrite collect_filenames_dicts, IH, <- app_assoc.
Qed.

(** X19.  When the code host serves pages with items and then an empty
    page, [list_pr_files] asks for the pages 1, 2, ... in order, a hundred
    items a page, stops at the empty one, and returns the file names of the
    pages in order; later responses are left unread. *)
Theorem list_pr_files_pages s repo pr rs batches last rest d :
  Forall2 served_page rs batches ->
  raise_for_status (gh_status last) = Ok tt ->
  (exists b, gh_json last = Some b /\ truthy b = false) ->
  list_pr_files api py_repr s repo pr
    {| github := rs ++ last :: rest; discord := d |}
  = (page_requests api s repo pr 1 (S (length rs)),
     Returned (concat (map (filenames_of py_repr) batches))
       {| github := rest; discord := d |}).
Proof.
  intros Hpages Hlast Hempty. unfold list_pr_files. cbn [github discord].
  by rewrite (list_pr_files_loop_pages s repo pr [] 1 rs batches last rest d).
Qed.

Lemma list_pr_files_loop_error s repo pr files page rs batches bad rest d :
  Forall2 served_page rs batches ->
  400 <= gh_status bad < 600 ->
  list_pr_files_loop api py_repr s repo pr files page (rs ++ bad :: rest) d
  = (page_requests api s repo pr page (S (length rs)),
     Failed (Builtin (HTTPError (gh_status bad)))).
Proof.
  intros Hpages Hbad. revert files page.
  induction Hpages as [|r items rs batches (Hr & Hjson & Hne) _ IH];
    intros files page.
  - cbn [app list_pr_files_loop]. unfold raise_for_status.
    destruct (Z.leb_spec 400 (gh_status bad)); [|lia].
    destruct (Z.ltb_spec (gh_status bad) 600); [|lia]. simpl.
    unfold page_requests. simpl. by rewrite Z.add_0_r.
  - cbn [app list_pr_files_loop]. rewrite Hr, Hjson.
    assert (truthy (VList (map VDict items)) = true) as ->.
    { by destruct items. }
    cbn [negb iterate_batch length].
    rewrite (page_requests_cons s repo pr page (S (length rs))).
    by rewrite collect_filenames_dicts, IH.
Qed.

(** X20.  A page answered with a 4xx or 5xx status makes [list_pr_files]
    raise that status: the file names gathered so far are dropped and no
    further page is asked for. *)
Theorem list_pr_files_error s repo pr rs batches bad rest d :
  Forall2 served_page rs batches ->
  400 <= gh_status bad < 600 ->
  list_pr_files api py_repr s repo pr
    {| github := rs ++ bad :: rest; discord := d |}
  = (page_requests api s repo pr 1 (S (length rs)),
     Failed (Builtin (HTTPError (gh_status bad)))).
Proof.
  intros Hpages Hbad. unfold list_pr_files. cbn [github discord].
  by apply (list_pr_files_loop_error s repo pr [] 1 rs batches).
Qed.

End HostProps.

(** ** The message builder *)

Lemma ends_with_newline_app s t :
  ends_with_newline t -> ends_with_newline (s ++ t).
Proof. unfold ends_with_newline. intros H. by rewrite last_app, H. Qed.

Lemma ends_with_newline_cons c t :
  ends_with_newline t -> ends_with_newline (c :: t).
Proof. apply (ends_with_newline_app [c]). Qed.

Ltac newline :=
  repeat first [ reflexivity
               | apply ends_with_newline_cons
               | apply ends_with_newline_app ].

Lemma join_Forall {A} (P : A -> Prop) sep (groups : list (list A)) :
  Forall P sep -> Forall (Forall P) groups -> Forall P (join sep groups).
Proof.
  intros Hsep. induction 1 as [|g groups Hg Hgroups IH]; [done|].
  destruct groups as [|g' groups]; [done|].
  change (join sep (g :: g' :: groups))
    with (g ++ sep ++ join sep (g' :: groups)).
  rewrite !Forall_app. by repeat split.
Qed.

Section BuilderProps.

Context (py_repr : value -> pystr).

Lemma change_lines_newline change :
  Forall ends_with_newline (change_lines py_repr change).
Proof.
  unfold change_lines. destruct change; simpl; try done.
  destruct (bool_decide _); [done|]. constructor; [|done]. newline.
Qed.

Lemma detail_lines_newline e :
  Forall ends_with_newline (detail_lines py_repr e).
Proof.
  unfold detail_lines. destruct (py_get (lit "changes") e); try done.
  apply Forall_forall. intros line Hin.
  apply list_elem_of_In, in_flat_map in Hin as (c & _ & Hin).
  pose proof (change_lines_newline c) as Hc. rewrite Forall_forall in Hc.
  by apply Hc, list_elem_of_In.
Qed.

Lemma changelog_entries_newline es :
  Forall ends_with_newline (changelog_entries_to_message_lines py_repr es).
Proof.
  unfold changelog_entries_to_message_lines.
  rewrite append_author_lines_loop. simpl.
  generalize (foldl (fun by_author e =>
                       setdefault_append (entry_author py_repr e) e by_author)
                [] es).
  intros groups. destruct groups as [|g groups]; [done|].
  cbn [app]. apply join_Forall; [by constructor|].
  apply Forall_forall. intros lines Hin.
  apply list_elem_of_In, in_map_iff in Hin as (item & <- & _).
  constructor; [unfold author_header; newline|].
  apply Forall_forall. intros line Hin.
  apply list_elem_of_In, in_flat_map in Hin as (e & _ & Hin).
  pose proof (detail_lines_newline e) as He. rewrite Forall_forall in He.
  by apply He, list_elem_of_In.
Qed.

Lemma append_delta_lines_block lines delta :
  append_delta_lines py_repr lines delta = lines ++ delta_block py_repr delta.
Proof.
  unfold append_delta_lines, delta_block. simpl.
  destruct (bool_decide (render_change_type_summary py_repr _ = []));
    destruct (bool_decide (removed delta = []));
    rewrite <- ?app_assoc; simpl; rewrite <- ?app_assoc; done.
Qed.

Lemma delta_block_newline delta :
  Forall ends_with_newline (delta_block py_repr delta).
Proof.
  unfold delta_block. cbv zeta. rewrite !Forall_app. repeat split.
  - constructor; [|done]. newline.
  - destruct (bool_decide _); [done|]. constructor; [|done]. newline.
  - apply changelog_entries_newline.
  - destruct (bool_decide _); [done|]. constructor; [|done]. newline.
  - by constructor.
Qed.

(** X21.  The message is the title line, the title of the pull request
    when it has one, a blank line, and then the block of each file in
    order; the block of a file does not depend on the other files. *)
Theorem build_message_lines_blocks pr_number pr_title pr_url deltas :
  build_message_lines py_repr pr_number pr_title pr_url deltas
  = [TITLE_HEAD ++ str_of_Z pr_number ++ lit "](" ++ py_str py_repr pr_url
       ++ TITLE_TAIL]
    ++ (if truthy pr_title then [py_str py_repr pr_title ++ [10%N]] else [])
    ++ [[10%N]]
    ++ flat_map (delta_block py_repr) deltas.
Proof.
  unfold build_message_lines.
  assert (forall lines,
            foldl (append_delta_lines py_repr) lines deltas
            = lines ++ flat_map (delta_block py_repr) deltas) as ->.
  { induction deltas as [|delta deltas IH]; intros lines; simpl.
    - by rewrite app_nil_r.
    - by rewrite IH, append_delta_lines_block, <- app_assoc. }
  destruct (truthy pr_title); by rewrite <- ?app_assoc.
Qed.

(** X22.  Every line of the message ends with a newline, so that lines put
    together in a chunk stay apart. *)
Theorem build_message_lines_newlines pr_number pr_title pr_url deltas :
  Forall ends_with_newline
    (build_message_lines py_repr pr_number pr_title pr_url deltas).
Proof.
  unfold build_message_lines.
  assert (forall lines,
            Forall ends_with_newline lines ->
            Forall ends_with_newline
              (foldl (append_delta_lines py_repr) lines deltas)) as Hfold.
  { induction deltas as [|delta deltas IH]; intros lines Hlines; [done|].
    simpl. apply IH. rewrite append_delta_lines_block.
    apply Forall_app. split; [done|]. apply delta_block_newline. }
  apply Hfold. apply Forall_app. split; [|by constructor].
  assert (ends_with_newline
            (TITLE_HEAD ++ str_of_Z pr_number ++ lit "](" ++
               py_str py_repr pr_url ++ TITLE_TAIL)) as Htitle by newline.
  destruct (truthy pr_title).
  - constructor; [done|]. constructor; [|done]. newline.
  - by constructor.
Qed.


End BuilderProps.

(** ** Programs that only talk to the code host *)

Lemma host_prog_ret {A} s (a : A) : host_prog s (mret a).
Proof. intros w. split; [constructor|]. by intros a' w' [= _ <-]. Qed.

Lemma host_prog_throw {A} s e : host_prog s (@throw A e).
Proof. intros w. by split. Qed.

Lemma host_prog_print s msg : host_prog s (print msg).
Proof.
  intros w. split; [by repeat constructor|]. by intros a' w' [= _ <-].
Qed.

Lemma host_prog_of_fallible {A} s (a : fallible A) :
  host_prog s (of_fallible a).
Proof. destruct a; [apply host_prog_ret|apply host_prog_throw]. Qed.

Lemma host_prog_bind {A B} s (m : prog A) (k : A -> prog B) :
  host_prog s m -> (forall a, host_prog s (k a)) -> host_prog s (m ≫= k).
Proof.
  intros Hm Hk w. unfold mbind, prog_mbind, prog_bind.
  destruct (Hm w) as [Hacts Hw]. destruct (m w) as [acts [a w1| |]];
    simpl in *; try done.
  destruct (Hk a w1) as [Hacts' Hw']. destruct (k a w1) as [acts' o].
  simpl in *. split; [by apply Forall_app|].
  intros b w' ->. rewrite (Hw' b w' eq_refl). by apply (Hw a).
Qed.

Lemma host_prog_session_get s r :
  req_session r = s -> host_prog s (session_get r).
Proof.
  intros Hr w. unfold session_get. destruct (github w); [done|]. simpl.
  split; [by repeat constructor|]. by intros a w' [= _ <-].
Qed.

Lemma host_prog_each {S A} s (body : S -> A -> prog S) l st :
  (forall st x, host_prog s (body st x)) -> host_prog s (prog_each body l st).
Proof.
  intros Hbody. revert st; induction l as [|x l IH]; intros st.
  - apply host_prog_ret.
  - simpl. apply host_prog_bind; [apply Hbody|apply IH].
Qed.

Lemma host_prog_gh_raise_for_status s resp :
  host_prog s (gh_raise_for_status resp).
Proof. apply host_prog_of_fallible. Qed.

Lemma host_prog_github_get_json s url : host_prog s (github_get_json s url).
Proof.
  unfold github_get_json. apply host_prog_bind.
  - by apply host_prog_session_get.
  - intros resp. apply host_prog_bind; [apply host_prog_gh_raise_for_status|].
    intros _. unfold gh_json_of.
    destruct (gh_json resp); [apply host_prog_ret|apply host_prog_throw].
Qed.

Section HostProgs.

Context (api : pystr) (py_repr : value -> pystr)
        (safe_load : pystr -> fallible value) (quote : pystr -> pystr).

Lemma host_prog_get_repo_file_text s repo path sha :
  host_prog s (get_repo_file_text api quote s repo path sha).
Proof.
  unfold get_repo_file_text. apply host_prog_bind.
  - by apply host_prog_session_get.
  - intros resp. destruct (gh_status resp =? 404); [apply host_prog_ret|].
    apply host_prog_bind; [apply host_prog_gh_raise_for_status|].
    intros _. apply host_prog_ret.
Qed.

Lemma host_prog_list_pr_files s repo pr :
  host_prog s (list_pr_files api py_repr s repo pr).
Proof.
  intros w. unfold list_pr_files.
  generalize (@nil (list N)) 1. generalize (github w) as gh.
  induction gh as [|resp gh IH]; intros files page; [by split|].
  cbn [list_pr_files_loop].
  destruct (raise_for_status (gh_status resp));
    [|split; [by repeat constructor|done]].
  destruct (gh_json resp) as [batch|];
    [|split; [by repeat constructor|done]].
  destruct (truthy batch); simpl.
  - destruct (iterate_batch py_repr batch files) as [fs|e];
      [|split; [by repeat constructor|done]].
    specialize (IH fs (page + 1)).
    destruct (list_pr_files_loop api py_repr s repo pr fs (page + 1) gh
                (discord w)) as [acts o].
    simpl in *. destruct IH as [Hacts Hw]. split; [|done].
    by constructor.
  - split; [by repeat constructor|]. by intros x w' [= _ <-].
Qed.

Lemma host_prog_append_file_delta s repo base_sha merge_sha deltas path :
  host_prog s
    (append_file_delta api safe_load quote s repo base_sha merge_sha deltas
       path).
Proof.
  unfold append_file_delta.
  apply host_prog_bind; [apply host_prog_get_repo_file_text|]. intros old_text.
  apply host_prog_bind; [apply host_prog_get_repo_file_text|]. intros new_text.
  apply host_prog_bind; [apply host_prog_of_fallible|]. intros old_data.
  apply host_prog_bind; [apply host_prog_of_fallible|]. intros new_data.
  apply host_prog_bind; [apply host_prog_of_fallible|].
  intros [[a m] r]. destruct (_ && _); apply host_prog_ret.
Qed.

Lemma delivering_host url s (m : prog unit) :
  host_prog s m -> delivering url s m.
Proof.
  intros Hm w. exists (fst (m w)), []. rewrite app_nil_r.
  destruct (Hm w) as [Hacts _]. by repeat split; [|left].
Qed.

Lemma delivering_bind {A} url s (m : prog A) (k : A -> prog unit) :
  host_prog s m -> (forall a, delivering url s (k a)) ->
  delivering url s (m ≫= k).
Proof.
  intros Hm Hk w. unfold mbind, prog_mbind, prog_bind.
  destruct (Hm w) as [Hacts Hw]. destruct (m w) as [acts [a w1| |]];
    simpl in *.
  - destruct (Hk a w1) as (pre & evs & Heq & Hpre & Hevs).
    destruct (k a w1) as [acts' o]. simpl in *. subst acts'.
    exists (acts ++ pre), evs. rewrite app_assoc. split; [done|].
    split; [by apply Forall_app|]. by rewrite (Hw a w1 eq_refl) in Hevs.
  - exists acts, []. rewrite app_nil_r. by repeat split; [|left].
  - exists acts, []. rewrite app_nil_r. by repeat split; [|left].
Qed.

Lemma delivering_deliver url s lines delay :
  delivering url s (deliver (send_message_lines url lines delay)).
Proof.
  intros w. exists [], (fst (send_message_lines url lines delay (discord w))).
  unfold deliver.
  destruct (send_message_lines url lines delay (discord w))
    as [evs [[] rest| |]] eqn:Hrun; simpl; (split; [done|]);
    (split; [done|]); right; exists lines, delay; by rewrite Hrun.
Qed.

Lemma delivering_run url repo s pr dir ext delay :
  delivering url s
    (run api py_repr safe_load quote url repo s pr dir ext delay).
Proof.
  unfold run.
  apply delivering_bind; [apply host_prog_github_get_json|]. intros pr_json.
  apply delivering_bind; [apply host_prog_of_fallible|]. intros merged.
  destruct (negb merged); [apply delivering_host, host_prog_print|].
  apply delivering_bind; [apply host_prog_of_fallible|]. intros title.
  apply delivering_bind; [apply host_prog_of_fallible|]. intros html_url.
  apply delivering_bind; [apply host_prog_of_fallible|]. intros base.
  apply delivering_bind; [apply host_prog_of_fallible|]. intros base_sha.
  apply delivering_bind; [apply host_prog_of_fallible|]. intros merge_sha.
  destruct (_ || _); [apply delivering_host, host_prog_print|].
  apply delivering_bind; [apply host_prog_list_pr_files|]. intros files.
  destruct (bool_decide _); [apply delivering_host, host_prog_print|].
  apply delivering_bind.
  { apply host_prog_each. intros. apply host_prog_append_file_delta. }
  intros deltas.
  destruct (bool_decide _); [apply delivering_host, host_prog_print|].
  apply delivering_deliver.
Qed.

End HostProgs.

(** ** [main] *)

Lemma lstrip_char_replicate c n s :
  lstrip_char c (replicate n c ++ s) = lstrip_char c s.
Proof.
  induction n as [|n IH]; [done|].
  cbn [replicate app lstrip_char]. by rewrite N.eqb_refl.
Qed.

Lemma rev_replicate {A} n (x : A) : rev (replicate n x) = replicate n x.
Proof.
  induction n as [|n IH]; [done|]. simpl. rewrite IH.
  clear IH. induction n as [|n IH]; [done|]. simpl. by rewrite IH.
Qed.

Lemma rstrip_char_replicate c n s :
  rstrip_char c (s ++ replicate n c) = rstrip_char c s.
Proof.
  unfold rstrip_char.
  by rewrite rev_app_distr, rev_replicate, lstrip_char_replicate.
Qed.

Section MainProps.

Context (env : gmap pystr pystr)
        (py_repr : value -> pystr)
        (safe_load : pystr -> fallible value)
        (quote : pystr -> pystr)
        (py_int : pystr -> option Z)
        (py_float : pystr -> option Q).

(** X24.  Without a webhook URL, unset or empty, [main] prints one line and
    returns: nothing is asked of the code host, nothing is posted, and no
    other setting is looked at. *)
Theorem main_without_webhook w :
  unset env (lit "DISCORD_WEBHOOK_URL") ->
  main env py_repr safe_load quote py_int py_float w
  = ([Print (lit "No DISCORD_WEBHOOK_URL set, skipping Discord send")],
     Returned tt w).
Proof. unfold main. by intros [-> | ->]. Qed.

(** X25.  With a webhook URL, a token, repository or pull request number
    that is unset or empty makes [main] raise a [RuntimeError] naming it,
    before any request is made. *)
Theorem main_missing_setting url w :
  env !! lit "DISCORD_WEBHOOK_URL" = Some url -> url <> [] ->
  unset env (lit "GITHUB_TOKEN") \/ unset env (lit "GITHUB_REPOSITORY")
  \/ unset env (lit "PR_NUMBER") ->
  exists name,
    name ∈ [lit "GITHUB_TOKEN"; lit "GITHUB_REPOSITORY"; lit "PR_NUMBER"]
    /\ unset env name
    /\ main env py_repr safe_load quote py_int py_float w
       = ([], Failed (RuntimeError (name ++ lit " is required"))).
Proof.
  intros Hurl Hne Hmissing. unfold main. rewrite Hurl.
  destruct url as [|c url]; [done|].
  destruct (env !! lit "GITHUB_TOKEN") as [[|c1 token]|] eqn:Htoken;
    [exists (lit "GITHUB_TOKEN"); split; [set_solver|]; split; [by right|done]
    | |exists (lit "GITHUB_TOKEN"); split; [set_solver|]; split;
       [by left|done]].
  destruct (env !! lit "GITHUB_REPOSITORY") as [[|c2 repo]|] eqn:Hrepo;
    [exists (lit "GITHUB_REPOSITORY"); split; [set_solver|]; split;
       [by right|done]
    | |exists (lit "GITHUB_REPOSITORY"); split; [set_solver|]; split;
       [by left|done]].
  destruct (env !! lit "PR_NUMBER") as [[|c3 pr]|] eqn:Hpr;
    [exists (lit "PR_NUMBER"); split; [set_solver|]; split; [by right|done]
    | |exists (lit "PR_NUMBER"); split; [set_solver|]; split; [by left|done]].
  destruct Hmissing as [[?|?]|[[?|?]|[?|?]]]; congruence.
Qed.

(** The actions of [main]: requests on the session made from the token and
    lines printed, then the events of one run of the pipeline to the webhook
    URL, if any. *)
Lemma main_trace w :
  exists pre evs,
    fst (main env py_repr safe_load quote py_int py_float w)
    = pre ++ map Discord evs
    /\ Forall (fun a =>
                 match a with
                 | Get r =>
                     exists token,
                       env !! lit "GITHUB_TOKEN" = Some token
                       /\ req_session r = github_session token
                 | Print _ => True
                 | Discord _ => False
                 end) pre
    /\ (evs = []
        \/ exists url lines delay,
             env !! lit "DISCORD_WEBHOOK_URL" = Some url
             /\ evs = fst (send_message_lines url lines delay (discord w))).
Proof.
  assert (forall acts o,
            Forall (fun a => match a with Print _ => True | _ => False end)
              acts ->
            main env py_repr safe_load quote py_int py_float w = (acts, o) ->
            exists pre evs,
              fst (main env py_repr safe_load quote py_int py_float w)
              = pre ++ map Discord evs
              /\ Forall (fun a =>
                           match a with
                           | Get r =>
                               exists token,
                                 env !! lit "GITHUB_TOKEN" = Some token
                                 /\ req_session r = github_session token
                           | Print _ => True
                           | Discord _ => False
                           end) pre
              /\ (evs = []
                  \/ exists url lines delay,
                       env !! lit "DISCORD_WEBHOOK_URL" = Some url
                       /\ evs = fst (send_message_lines url lines delay
                                       (discord w)))) as Hquiet.
  { intros acts o Hacts Hrun. exists acts, []. rewrite Hrun, app_nil_r.
    split; [done|]. split; [|by left].
    eapply Forall_impl; [exact Hacts|]. by intros [| |]. }
  unfold main in *.
  destruct (env !! lit "DISCORD_WEBHOOK_URL") as [[|c url]|] eqn:Hurl;
    [by eapply Hquiet; [|done]; repeat constructor| |
     by eapply Hquiet; [|done]; repeat constructor].
  destruct (env !! lit "GITHUB_TOKEN") as [[|c1 token]|] eqn:Htoken;
    [by eapply Hquiet; [|done]; repeat constructor| |
     by eapply Hquiet; [|done]; repeat constructor].
  destruct (env !! lit "GITHUB_REPOSITORY") as [[|c2 repo]|];
    [by eapply Hquiet; [|done]; repeat constructor| |
     by eapply Hquiet; [|done]; repeat constructor].
  destruct (env !! lit "PR_NUMBER") as [[|c3 pr_raw]|];
    [by eapply Hquiet; [|done]; repeat constructor| |
     by eapply Hquiet; [|done]; repeat constructor].
  destruct (py_int (c3 :: pr_raw)) as [pr|];
    [|by eapply Hquiet; [|done]; repeat constructor].
  destruct (py_float _) as [delay|];
    [|by eapply Hquiet; [|done]; repeat constructor].
  clear Hquiet.
  destruct (delivering_run (GITHUB_API_URL env) py_repr safe_load quote
              (c :: url) (c2 :: repo) (github_session (c1 :: token)) pr
              (rstrip_char SLASH
                 (default DEFAULT_CHANGELOG_DIR (env !! lit "CHANGELOG_DIR")))
              (default DEFAULT_CHANGELOG_EXT (env !! lit "CHANGELOG_EXT"))
              delay w) as (pre & evs & Heq & Hpre & Hevs).
  exists pre, evs. split; [done|]. split.
  - eapply Forall_impl; [exact Hpre|]. intros [r| |]; simpl; try done.
    intros Hr. by exists (c1 :: token).
  - destruct Hevs as [->|(lines & dl & ->)]; [by left|right].
    by exists (c :: url), lines, dl.
Qed.

(** X26.  In every run of [main] all requests to the code host, and the
    lines [main] itself prints, come before the first event of the delivery
    pipeline, and the pipeline runs at most once, to the webhook URL of the
    environment, on the webhook as it was at the start. *)
Theorem main_host_before_delivery w :
  exists pre evs,
    fst (main env py_repr safe_load quote py_int py_float w)
    = pre ++ map Discord evs
    /\ Forall (fun a => match a with Discord _ => False | _ => True end) pre
    /\ (evs = []
        \/ exists url lines delay,
             env !! lit "DISCORD_WEBHOOK_URL" = Some url
             /\ evs = fst (send_message_lines url lines delay (discord w))).
Proof.
  destruct (main_trace w) as (pre & evs & Heq & Hpre & Hevs).
  exists pre, evs. split; [done|]. split; [|done].
  eapply Forall_impl; [exact Hpre|]. by intros [| |].
Qed.

(** X27.  Every request [main] makes to the code host is made on the
    session that carries the token of the environment as bearer token, the
    GitHub media type and the API version. *)
Theorem main_requests_authorized w r :
  Get r ∈ fst (main env py_repr safe_load quote py_int py_float w) ->
  exists token,
    env !! lit "GITHUB_TOKEN" = Some token
    /\ req_session r
       = [ (lit "Authorization", lit "Bearer " ++ token);
           (lit "Accept", lit "application/vnd.github+json");
           (lit "X-GitHub-Api-Version", lit "2022-11-28") ].
Proof.
  destruct (main_trace w) as (pre & evs & -> & Hpre & _).
  rewrite elem_of_app. intros [Hin|Hin].
  - rewrite Forall_forall in Hpre. apply (Hpre (Get r) Hin).
  - apply list_elem_of_In, in_map_iff in Hin as (ev & Hev & _). done.
Qed.

End MainProps.

(** X30.  Slashes at the end of [CHANGELOG_DIR] make no difference to
    [main]. *)
Theorem main_changelog_dir_slashes env py_repr safe_load quote py_int
    py_float dir n :
  main (<[lit "CHANGELOG_DIR" := dir ++ replicate n SLASH]> env)
    py_repr safe_load quote py_int py_float
  = main (<[lit "CHANGELOG_DIR" := dir]> env)
      py_repr safe_load quote py_int py_float.
Proof.
  unfold main, GITHUB_API_URL.
  rewrite !lookup_insert_eq, !lookup_insert_ne by done.
  cbn [default from_option id]. by rewrite rstrip_char_replicate.
Qed.

(** ** The loop over the changelog files, and the unmerged pull request *)

Lemma diff_entries_nil_l l :
  hashable_ids l = true ->
  diff_entries [] l = Ok (filter (fun e => has_id e) l, [], []).
Proof.
  intros Hl. rewrite diff_entries_returns by done.
  unfold added_of, removed_of.
  assert (modified_of [] l = []) as ->.
  { apply filter_nil_bool. intros e _. unfold is_modified, multiplicity.
    simpl. by destruct (has_id e). }
  do 2 f_equal. f_equal. apply filter_ext_in. intros e _. unfold id_in.
  simpl. by rewrite andb_true_r.
Qed.

Lemma extract_entries_not_none data :
  extract_entries (if is_none data then VDict [] else data)
  = extract_entries data.
Proof. by destruct data. Qed.

Section LoopProps.

Context (api : pystr) (py_repr : value -> pystr)
        (safe_load : pystr -> fallible value) (quote : pystr -> pystr).

(** X28.  For a file the pull request creates (the code host answers 404
    at the base revision and serves the file at the merge revision), the
    loop body of [main] makes the two requests, in this order, and reports
    every entry of the new file that carries an id as added, nothing as
    modified or removed; a new file without such an entry adds no delta. *)
Theorem append_file_delta_created s repo base_sha merge_sha deltas file
    missing served rest d data :
  gh_status missing = 404 ->
  gh_status served <> 404 ->
  raise_for_status (gh_status served) = Ok tt ->
  safe_load (lstrip_char BOM (gh_text served)) = Success data ->
  hashable_ids (extract_entries data) = true ->
  append_file_delta api safe_load quote s repo base_sha merge_sha deltas file
    {| github := missing :: served :: rest; discord := d |}
  = ([Get (content_request api quote s repo file base_sha);
      Get (content_request api quote s repo file merge_sha)],
     Returned
       (let created := filter (fun e => has_id e) (extract_entries data) in
        if bool_decide (created = []) then deltas
        else deltas ++ [{| path := file; added := created; modified := [];
                           removed := [] |}])
       {| github := rest; discord := d |}).
Proof.
  intros Hmissing Hserved Hok Hdata Hids.
  unfold append_file_delta, get_repo_file_text.
  unfold mbind, prog_mbind, prog_bind, session_get. cbn [github discord].
  rewrite Hmissing. cbn [Z.eqb Pos.eqb mret prog_mret prog_ret app].
  cbn [github discord].
  apply Z.eqb_neq in Hserved. rewrite Hserved.
  unfold gh_raise_for_status. rewrite Hok.
  cbn [of_result of_fallible prog_ret app parse_yaml].
  rewrite Hdata. cbn [mbind fallible_bind of_fallible prog_ret app].
  rewrite extract_entries_not_none.
  change (extract_entries (VDict [])) with (@nil entry).
  rewrite diff_entries_nil_l by done.
  cbn [of_result of_fallible prog_ret app].
  fold (content_request api quote s repo file base_sha).
  fold (content_request api quote s repo file merge_sha).
  cbn zeta. rewrite !andb_true_r.
  by destruct (bool_decide
                 (filter (fun e => has_id e) (extract_entries data) = [])).
Qed.

(** X29.  When the pull request is not merged ([merged] and [merged_at]
    both falsy or absent), [main] makes the one request for the pull
    request, prints that it skips, and returns: the files are not listed
    and nothing is posted. *)
Theorem run_unmerged url repo s pr dir ext delay resp rest d fields :
  raise_for_status (gh_status resp) = Ok tt ->
  gh_json resp = Some (VDict fields) ->
  truthy (py_get (lit "merged") fields) = false ->
  truthy (py_get (lit "merged_at") fields) = false ->
  run api py_repr safe_load quote url repo s pr dir ext delay
    {| github := resp :: rest; discord := d |}
  = ([Get {| req_session := s;
             req_url := api ++ lit "/repos/" ++ repo ++ lit "/pulls/"
                        ++ str_of_Z pr;
             req_headers := []; req_params := [] |};
      Print (lit "PR is not merged, skipping")],
     Returned tt {| github := rest; discord := d |}).
Proof.
  intros Hok Hjson Hmerged Hat.
  unfold run, github_get_json, mbind, prog_mbind, prog_bind, session_get.
  cbn [github discord]. unfold gh_raise_for_status, gh_json_of.
  rewrite Hok, Hjson. cbn [of_result of_fallible prog_ret app get_method].
  cbn [mbind fallible_bind]. rewrite Hmerged.
  cbn [get_method mbind fallible_bind]. rewrite Hat. done.
Qed.

End LoopProps.

(** ** Worked examples for the rest of the script *)

Lemma diff_entries_outputs_have_ids_witness :
  diff_entries sample_old sample_new
  = Ok ([sample_entry 4 "g"], [sample_entry 2 "B"], [sample_entry 1 "a"])
  /\ Forall (fun e => is_none (py_get (lit "id") e) = false)
       ([sample_entry 4 "g"] ++ [sample_entry 2 "B"] ++ [sample_entry 1 "a"]).
Proof.
  split; [vm_compute; reflexivity|].
  apply (diff_entries_outputs_have_ids sample_old sample_new).
  vm_compute; reflexivity.
Defined.

Lemma diff_entries_sublists_witness :
  diff_entries sample_old sample_new
  = Ok ([sample_entry 4 "g"], [sample_entry 2 "B"], [sample_entry 1 "a"])
  /\ ([sample_entry 4 "g"] `sublist_of` sample_new
      /\ [sample_entry 2 "B"] `sublist_of` sample_new
      /\ [sample_entry 1 "a"] `sublist_of` sample_old).
Proof.
  split; [vm_compute; reflexivity|].
  apply (diff_entries_sublists sample_old sample_new).
  vm_compute; reflexivity.
Defined.

Lemma diff_entries_swap_witness :
  diff_entries sample_old sample_new
  = Ok ([sample_entry 4 "g"], [sample_entry 2 "B"], [sample_entry 1 "a"])
  /\ exists modified',
       diff_entries sample_new sample_old
       = Ok ([sample_entry 1 "a"], modified', [sample_entry 4 "g"]).
Proof.
  split; [vm_compute; reflexivity|].
  apply (diff_entries_swap sample_old sample_new
           [sample_entry 4 "g"] [sample_entry 2 "B"] [sample_entry 1 "a"]).
  vm_compute; reflexivity.
Defined.

Lemma diff_entries_empty_side_witness :
  hashable_ids sample_old = true
  /\ (diff_entries [] sample_old
      = Ok (filter (fun e => has_id e) sample_old, [], [])
      /\ diff_entries sample_old []
         = Ok ([], [], filter (fun e => has_id e) sample_old)).
Proof.
  split; [vm_compute; reflexivity|].
  apply (diff_entries_empty_side sample_old). vm_compute; reflexivity.
Defined.

Lemma diff_entries_unchanged_witness :
  diff_entries sample_old sample_new
  = Ok ([sample_entry 4 "g"], [sample_entry 2 "B"], [sample_entry 1 "a"])
  /\ sample_entry 3 "c" ∈ sample_old
  /\ sample_entry 3 "c" ∈ sample_new
  /\ wf_entry (sample_entry 3 "c") = true
  /\ ((sample_entry 3 "c" ∉ [sample_entry 4 "g"])
      /\ (sample_entry 3 "c" ∉ [sample_entry 2 "B"])
      /\ (sample_entry 3 "c" ∉ [sample_entry 1 "a"])).
Proof.
  assert (sample_entry 3 "c" ∈ sample_old) as Hold
    by (unfold sample_old; set_solver).
  assert (sample_entry 3 "c" ∈ sample_new) as Hnew
    by (unfold sample_new; set_solver).
  split; [vm_compute; reflexivity|].
  split; [exact Hold|]. split; [exact Hnew|].
  split; [vm_compute; reflexivity|].
  apply (diff_entries_unchanged sample_old sample_new);
    [vm_compute; reflexivity|exact Hold|exact Hnew|vm_compute; reflexivity].
Defined.


Lemma send_message_lines_accepted_witness :
  Forall (fun r => status_code r = 200 \/ status_code r = 204) sample_script
  /\ (length (chunks_of sample_lines) <= length sample_script)%nat
  /\ send_message_lines (lit "u") sample_lines 2%Q sample_script
     = (accepted_trace (lit "u") 2%Q (chunks_of sample_lines),
        Done tt (drop (length (chunks_of sample_lines)) sample_script)).
Proof.
  assert (Forall (fun r => status_code r = 200 \/ status_code r = 204)
            sample_script) as Hok
    by (repeat (constructor; [by right|]); constructor).
  assert (length (chunks_of sample_lines) <= length sample_script)%nat
    as Hlen by (vm_compute; lia).
  split; [exact Hok|]. split; [exact Hlen|].
  exact (send_message_lines_accepted (lit "u") sample_lines 2%Q sample_script
           Hok Hlen).
Defined.

Lemma send_discord_webhook_transient_cap_witness :
  length (replicate 5 (status_only 503)) = 5%nat
  /\ Forall (fun r => is_transient (status_code r) = true)
       (replicate 5 (status_only 503) ++ [status_only 500])
  /\ (let post := EvPost (lit "u") (get_discord_body (lit "abc")) in
      send_discord_webhook (lit "u") [lit "abc"]
        (replicate 5 (status_only 503) ++ status_only 500 :: sample_script)
      = ([EvSend [lit "abc"]; post; EvSleep 2%Q; post; EvSleep 4%Q; post;
          EvSleep 8%Q; post; EvSleep 16%Q; post; EvSleep 30%Q; post],
         Raised (HTTPError 500))).
Proof.
  assert (Forall (fun r => is_transient (status_code r) = true)
            (replicate 5 (status_only 503) ++ [status_only 500])) as Hall
    by (repeat (constructor; [reflexivity|]); constructor).
  split; [reflexivity|]. split; [exact Hall|].
  exact (send_discord_webhook_transient_cap (lit "u") [lit "abc"]
           (replicate 5 (status_only 503)) (status_only 500) sample_script
           eq_refl Hall).
Defined.

Lemma send_discord_webhook_rate_limited_witness :
  Forall (fun r => status_code r = 429)
    [sample_rate_limited; sample_rate_limited]
  /\ (status_code (status_only 204) = 200
      \/ status_code (status_only 204) = 204)
  /\ (let post := EvPost (lit "u") (get_discord_body (lit "abc")) in
      send_discord_webhook (lit "u") [lit "abc"]
        ([sample_rate_limited; sample_rate_limited]
           ++ status_only 204 :: sample_script)
      = (EvSend [lit "abc"]
           :: flat_map
                (fun r => [post; EvSleep (floor0 (retry_after_of r))])
                [sample_rate_limited; sample_rate_limited]
           ++ [post],
         Done tt sample_script)).
Proof.
  assert (Forall (fun r => status_code r = 429)
            [sample_rate_limited; sample_rate_limited]) as Hall
    by (repeat (constructor; [reflexivity|]); constructor).
  split; [exact Hall|]. split; [by right|].
  exact (send_discord_webhook_rate_limited (lit "u") [lit "abc"]
           [sample_rate_limited; sample_rate_limited] (status_only 204)
           sample_script Hall (or_intror eq_refl)).
Defined.

Lemma send_discord_webhook_fatal_witness :
  400 <= status_code (status_only 404) < 600
  /\ status_code (status_only 404) <> 429
  /\ is_transient (status_code (status_only 404)) = false
  /\ send_discord_webhook (lit "u") [lit "abc"]
       (status_only 404 :: sample_script)
     = ([EvSend [lit "abc"];
         EvPost (lit "u") (get_discord_body (concat [lit "abc"]))],
        Raised (HTTPError (status_code (status_only 404)))).
Proof.
  assert (400 <= status_code (status_only 404) < 600) as Hrange
    by (simpl; lia).
  assert (status_code (status_only 404) <> 429) as Hne by (simpl; lia).
  split; [exact Hrange|]. split; [exact Hne|]. split; [reflexivity|].
  exact (send_discord_webhook_fatal (lit "u") [lit "abc"] (status_only 404)
           sample_script Hrange Hne eq_refl).
Defined.

Lemma parse_yaml_not_none_witness :
  parse_yaml sample_safe_load (Some [BOM]) = Success (VDict [])
  /\ (is_none (VDict []) = false
      /\ (Some [BOM] = None -> VDict [] = VDict [])
      /\ (forall t, Some [BOM] = Some t ->
            sample_safe_load (lstrip_char BOM t) = Success VNone ->
            VDict [] = VDict [])).
Proof.
  split; [vm_compute; reflexivity|].
  apply (parse_yaml_not_none sample_safe_load (Some [BOM]) (VDict [])).
  vm_compute; reflexivity.
Defined.

Lemma list_pr_files_pages_witness :
  Forall2 served_page [sample_page] [sample_items]
  /\ raise_for_status (gh_status sample_empty_page) = Ok tt
  /\ (exists b, gh_json sample_empty_page = Some b /\ truthy b = false)
  /\ list_pr_files sample_api sample_repr [] (lit "o/r") 7
       {| github := [sample_page] ++ sample_empty_page :: [sample_failure];
          discord := [] |}
     = (page_requests sample_api [] (lit "o/r") 7 1 2,
        Returned [lit "Resources/Changelog/a.yml"; lit "README.md"]
          {| github := [sample_failure]; discord := [] |}).
Proof.
  assert (Forall2 served_page [sample_page] [sample_items]) as Hpages
    by (repeat constructor; done).
  assert (exists b, gh_json sample_empty_page = Some b /\ truthy b = false)
    as Hempty by (by exists (VList [])).
  split; [exact Hpages|]. split; [reflexivity|]. split; [exact Hempty|].
  exact (list_pr_files_pages sample_api sample_repr [] (lit "o/r") 7
           [sample_page] [sample_items] sample_empty_page [sample_failure] []
           Hpages eq_refl Hempty).
Defined.

Lemma list_pr_files_error_witness :
  Forall2 served_page [sample_page] [sample_items]
  /\ 400 <= gh_status sample_failure < 600
  /\ list_pr_files sample_api sample_repr [] (lit "o/r") 7
       {| github := [sample_page] ++ sample_failure :: [sample_empty_page];
          discord := [] |}
     = (page_requests sample_api [] (lit "o/r") 7 1 2,
        Failed (Builtin (HTTPError 500))).
Proof.
  assert (Forall2 served_page [sample_page] [sample_items]) as Hpages
    by (repeat constructor; done).
  assert (400 <= gh_status sample_failure < 600) as Hbad by (simpl; lia).
  split; [exact Hpages|]. split; [exact Hbad|].
  exact (list_pr_files_error sample_api sample_repr [] (lit "o/r") 7
           [sample_page] [sample_items] sample_failure [sample_empty_page] []
           Hpages Hbad).
Defined.

Lemma main_without_webhook_witness :
  unset (∅ : gmap pystr pystr) (lit "DISCORD_WEBHOOK_URL")
  /\ main ∅ sample_repr sample_safe_load sample_quote sample_int sample_float
       sample_world
     = ([Print (lit "No DISCORD_WEBHOOK_URL set, skipping Discord send")],
        Returned tt sample_world).
Proof.
  assert (unset (∅ : gmap pystr pystr) (lit "DISCORD_WEBHOOK_URL")) as Hunset
    by (left; apply lookup_empty).
  split; [exact Hunset|].
  exact (main_without_webhook ∅ sample_repr sample_safe_load sample_quote
           sample_int sample_float sample_world Hunset).
Defined.

Lemma main_missing_setting_witness :
  sample_env_webhook !! lit "DISCORD_WEBHOOK_URL" = Some (lit "u")
  /\ lit "u" <> []
  /\ (unset sample_env_webhook (lit "GITHUB_TOKEN")
      \/ unset sample_env_webhook (lit "GITHUB_REPOSITORY")
      \/ unset sample_env_webhook (lit "PR_NUMBER"))
  /\ exists name,
       name ∈ [lit "GITHUB_TOKEN"; lit "GITHUB_REPOSITORY"; lit "PR_NUMBER"]
       /\ unset sample_env_webhook name
       /\ main sample_env_webhook sample_repr sample_safe_load sample_quote
            sample_int sample_float sample_world
          = ([], Failed (RuntimeError (name ++ lit " is required"))).
Proof.
  assert (sample_env_webhook !! lit "DISCORD_WEBHOOK_URL" = Some (lit "u"))
    as Hurl by (vm_compute; reflexivity).
  assert (lit "u" <> []) as Hne by done.
  assert (unset sample_env_webhook (lit "GITHUB_TOKEN")
          \/ unset sample_env_webhook (lit "GITHUB_REPOSITORY")
          \/ unset sample_env_webhook (lit "PR_NUMBER")) as Hmissing
    by (left; left; vm_compute; reflexivity).
  split; [exact Hurl|]. split; [exact Hne|]. split; [exact Hmissing|].
  exact (main_missing_setting sample_env_webhook sample_repr sample_safe_load
           sample_quote sample_int sample_float (lit "u") sample_world
           Hurl Hne Hmissing).
Defined.

Lemma main_requests_authorized_witness :
  Get {| req_session := github_session (lit "t");
         req_url := lit "https://api.github.com/repos/o/r/pulls/7";
         req_headers := []; req_params := [] |}
    ∈ fst (main sample_env sample_repr sample_safe_load sample_quote
             sample_int sample_float sample_world)
  /\ exists token,
       sample_env !! lit "GITHUB_TOKEN" = Some token
       /\ github_session (lit "t")
          = [ (lit "Authorization", lit "Bearer " ++ token);
              (lit "Accept", lit "application/vnd.github+json");
              (lit "X-GitHub-Api-Version", lit "2022-11-28") ].
Proof.
  assert (Get {| req_session := github_session (lit "t");
                 req_url := lit "https://api.github.com/repos/o/r/pulls/7";
                 req_headers := []; req_params := [] |}
            ∈ fst (main sample_env sample_repr sample_safe_load sample_quote
                     sample_int sample_float sample_world)) as Hin
    by (vm_compute; constructor).
  split; [exact Hin|].
  exact (main_requests_authorized sample_env sample_repr sample_safe_load
           sample_quote sample_int sample_float sample_world _ Hin).
Defined.

Lemma append_file_delta_created_witness :
  gh_status sample_missing = 404
  /\ gh_status sample_served <> 404
  /\ raise_for_status (gh_status sample_served) = Ok tt
  /\ sample_safe_load (lstrip_char BOM (gh_text sample_served))
     = Success sample_document
  /\ hashable_ids (extract_entries sample_document) = true
  /\ append_file_delta sample_api sample_safe_load sample_quote []
       (lit "o/r") (VStr (lit "b")) (VStr (lit "m")) []
       (lit "Resources/Changelog/a.yml")
       {| github := [sample_missing; sample_served]; discord := [] |}
     = ([Get (content_request sample_api sample_quote [] (lit "o/r")
                (lit "Resources/Changelog/a.yml") (VStr (lit "b")));
         Get (content_request sample_api sample_quote [] (lit "o/r")
                (lit "Resources/Changelog/a.yml") (VStr (lit "m")))],
        Returned
          [{| path := lit "Resources/Changelog/a.yml";
              added := [sample_entry 1 "a"]; modified := [];
              removed := [] |}]
          {| github := []; discord := [] |}).
Proof.
  assert (gh_status sample_served <> 404) as Hserved by (simpl; lia).
  split; [reflexivity|]. split; [exact Hserved|]. split; [reflexivity|].
  split; [reflexivity|]. split; [vm_compute; reflexivity|].
  exact (append_file_delta_created sample_api sample_safe_load sample_quote
           [] (lit "o/r") (VStr (lit "b")) (VStr (lit "m")) []
           (lit "Resources/Changelog/a.yml") sample_missing sample_served []
           [] sample_document eq_refl Hserved eq_refl eq_refl eq_refl).
Defined.

Lemma run_unmerged_witness :
  raise_for_status (gh_status sample_unmerged) = Ok tt
  /\ gh_json sample_unmerged
     = Some (VDict [(lit "merged", VBool false);
                    (lit "title", VStr (lit "t"))])
  /\ truthy (py_get (lit "merged")
               [(lit "merged", VBool false); (lit "title", VStr (lit "t"))])
     = false
  /\ truthy (py_get (lit "merged_at")
               [(lit "merged", VBool false); (lit "title", VStr (lit "t"))])
     = false
  /\ run sample_api sample_repr sample_safe_load sample_quote (lit "u")
       (lit "o/r") [] 7 DEFAULT_CHANGELOG_DIR DEFAULT_CHANGELOG_EXT 2%Q
       {| github := [sample_unmerged]; discord := sample_script |}
     = ([Get {| req_session := [];
                req_url := sample_api ++ lit "/repos/" ++ lit "o/r"
                           ++ lit "/pulls/" ++ str_of_Z 7;
                req_headers := []; req_params := [] |};
         Print (lit "PR is not merged, skipping")],
        Returned tt {| github := []; discord := sample_script |}).
Proof.
  split; [reflexivity|]. split; [reflexivity|]. split; [reflexivity|].
  split; [reflexivity|].
  exact (run_unmerged sample_api sample_repr sample_safe_load sample_quote
           (lit "u") (lit "o/r") [] 7 DEFAULT_CHANGELOG_DIR
           DEFAULT_CHANGELOG_EXT 2%Q sample_unmerged [] sample_script
           [(lit "merged", VBool false); (lit "title", VStr (lit "t"))]
           eq_refl eq_refl eq_refl eq_refl).
Defined.
